(** * A user CRUD service over gin and gorm: the handlers of main.go

    The five handlers of [main.go] are embedded as state-passing functions
    over a model of the [users] table.  The handlers themselves are
    transcribed statement by statement.  What they call in gin, encoding/json,
    gorm and the SQL engine is modelled at the level the handlers observe:

    - [ShouldBindJSON] decodes a JSON value INTO an existing [User]: a member
      sets the field it names, a member that is absent leaves the field as it
      was (encoding/json never clears a destination first);
    - [First] builds its WHERE clause the way gorm's
      [Statement.BuildCondition] does for a string argument: a string that
      [strconv.Atoi] accepts is a primary-key value, any other string is
      handed to the engine as the text of a condition;
    - [Create] sends the primary key along when it is not zero, and draws it
      from the table's sequence when it is zero;
    - [Save] is [Create] for a zero key, and otherwise an UPDATE by key that
      falls back to an insert when no row has the key;
    - [Delete] removes by key and refuses a zero key.

    Where the two engines of the repository differ (PostgreSQL in [main],
    SQLite in the tests), the model follows the engine it is given: in the
    order of a listing without ORDER BY, and in what becomes of the counter
    of ids after a key of the client's choosing or a rejected INSERT.

    A gorm call either takes effect and reports no error, or reports an error
    and leaves the table as it was.  Calls can also fail for reasons that are
    not in the table (a lost connection): the state carries a schedule of
    such failures, one entry consumed per call.  *)

From Stdlib Require Import ZArith List String Ascii Bool Lia Permutation.
Import ListNotations.
Open Scope string_scope.
Open Scope Z_scope.

(** ** Data model (main.go, lines 17-25) *)

(** [type User struct]: [ID int], [Name string], [Email string].  A Go [int]
    is 64 bits wide on the platforms the service is built for. *)
Record User : Type := mkUser { ID : Z; Name : string; Email : string }.

(** The value of [var user User]. *)
Definition zeroUser : User := mkUser 0 "" "".

Record ErrorResponse : Type := mkErrorResponse { Message : string }.

Definition int_min : Z := - 2 ^ 63.
Definition int_max : Z := 2 ^ 63 - 1.

Definition in_int (z : Z) : bool := (int_min <=? z) && (z <=? int_max).

(** ** JSON request bodies *)

(** A parsed JSON value.  A number literal is kept as [JInt] when it is
    written as a plain integer (the only form encoding/json stores into an
    [int] field) and as [JReal] when it has a fraction or an exponent. *)
#[warnings="-register-all"] Inductive json : Type :=
| JNull
| JBool (b : bool)
| JInt (z : Z)
| JReal
| JString (s : string)
| JArray (items : list json)
| JObject (members : list (string * json)).

(** The fields of [User], by their [json:"..."] tags. *)
Inductive field : Type := F_id | F_name | F_email.

Definition lower (c : ascii) : ascii :=
  let n := nat_of_ascii c in
  if (Nat.leb 65 n && Nat.leb n 90)%bool then ascii_of_nat (n + 32) else c.

Fixpoint fold_key (s : string) : string :=
  match s with
  | EmptyString => EmptyString
  | String c r => String (lower c) (fold_key r)
  end.

(** encoding/json matches an object key to a field tag exactly or, failing
    that, without regard to case.  The three tags hold none of the letters
    (k, s) that have a non-ASCII case variant, so folding ASCII letters is
    the whole of the comparison here. *)
Definition field_of_key (k : string) : option field :=
  let k' := fold_key k in
  if String.eqb k' "id" then Some F_id
  else if String.eqb k' "name" then Some F_name
  else if String.eqb k' "email" then Some F_email
  else None.

(** One object member decoded into [u].  [None] is a decoding error (a value
    of the wrong JSON type, or an integer that does not fit an [int]); [null]
    and unknown keys leave [u] as it is. *)
Definition set_member (u : User) (kv : string * json) : option User :=
  match field_of_key (fst kv), snd kv with
  | None, _ => Some u
  | Some _, JNull => Some u
  | Some F_id, JInt z =>
      if in_int z then Some (mkUser z (Name u) (Email u)) else None
  | Some F_name, JString s => Some (mkUser (ID u) s (Email u))
  | Some F_email, JString s => Some (mkUser (ID u) (Name u) s)
  | Some _, _ => None
  end.

(** Members are decoded in the order they are written, so a repeated key
    ends with its last value.  encoding/json goes on decoding after an error
    and reports it at the end; the handlers drop the struct in that case, so
    the error alone is kept. *)
Fixpoint set_members (u : User) (ms : list (string * json)) : option User :=
  match ms with
  | [] => Some u
  | kv :: r =>
      match set_member u kv with
      | Some u' => set_members u' r
      | None => None
      end
  end.

(** [c.ShouldBindJSON(&user)].  The body is [None] when the request carries
    no complete JSON value (empty or malformed text).  The result is [None]
    when the call returns an error, and otherwise the struct after decoding.
    [User] has no [binding] tags, so gin's validation step accepts every
    decoded value. *)
Definition ShouldBindJSON (body : option json) (user : User) : option User :=
  match body with
  | None => None
  | Some JNull => Some user
  | Some (JObject ms) => set_members user ms
  | Some _ => None
  end.

(** ** strconv.Atoi, as gorm uses it on a string condition *)

Definition digit (c : ascii) : option Z :=
  let n := nat_of_ascii c in
  if (Nat.leb 48 n && Nat.leb n 57)%bool then Some (Z.of_nat n - 48) else None.

Fixpoint digits (acc : Z) (s : string) : option Z :=
  match s with
  | EmptyString => Some acc
  | String c r =>
      match digit c with
      | Some d => digits (acc * 10 + d) r
      | None => None
      end
  end.

(** An optional sign, then one or more decimal digits, the value within the
    range of [int]. *)
Definition Atoi (s : string) : option Z :=
  let signed (neg : bool) (r : string) : option Z :=
    match r with
    | EmptyString => None
    | _ =>
        match digits 0 r with
        | Some n =>
            let z := if neg then - n else n in
            if in_int z then Some z else None
        | None => None
        end
    end in
  match s with
  | String "+" r => signed false r
  | String "-" r => signed true r
  | _ => signed false s
  end.

(** The decimal text of an integer, as a client writes the id of a JSON
    answer into a path: most significant digit first, a minus sign for a
    negative number.  Twenty digits are more than an [int] needs. *)
Definition digit_char (d : Z) : ascii := ascii_of_nat (48 + Z.to_nat d).

Fixpoint utoa (fuel : nat) (n : Z) (acc : string) : string :=
  match fuel with
  | O => acc
  | S f =>
      let acc' := String (digit_char (n mod 10)) acc in
      if n / 10 =? 0 then acc' else utoa f (n / 10) acc'
  end.

Definition Itoa (z : Z) : string :=
  if z <? 0 then String "-" (utoa 20 (- z) "") else utoa 20 z "".

(** ** Responses *)

(** What a handler passes to [c.JSON]: the slice of users, one user, an
    [ErrorResponse], or the [gin.H] map with its single ["message"] entry. *)
Inductive payload : Type :=
| Users (users : list User)
| OneUser (user : User)
| Failure (e : ErrorResponse)
| H (message : string).

(** [c.JSON(code, obj)]. *)
Record Response : Type := JSON { code : Z; obj : payload }.

Definition StatusBadRequest : Z := 400.
Definition StatusNotFound : Z := 404.
Definition StatusInternalServerError : Z := 500.

(** The answer three handlers give when [First] reports an error. *)
Definition not_found : Response :=
  JSON StatusNotFound (Failure (mkErrorResponse "User not found")).

(** What a handler reads from its [*gin.Context]: the [:id] path parameter
    and the request body. *)
Record Context : Type := mkContext { Param_id : string; Body : option json }.

(** ** The database *)

(** The [users] table with its rows in the order they were inserted (an
    updated row keeps its place); the counter of the table's ids, which is
    the last value it has given out or taken note of; and the schedule of
    calls that fail for outside reasons ([true] is a failing call; an
    exhausted schedule means no more failures).  In which order a SELECT
    without ORDER BY lists the rows is for the engine to say. *)
Record DB : Type := mkDB { rows : list User; seq : Z; faults : list bool }.

Definition emptyDB (fs : list bool) : DB := mkDB [] 0 fs.

Inductive gorm_error : Type :=
| ErrRecordNotFound
| ErrMissingWhereClause
| ErrEngine.

(** State passing over the database handle [db]. *)
Definition M (A : Type) : Type := DB -> A * DB.

Definition ret {A : Type} (a : A) : M A := fun db => (a, db).

Definition bind {A B : Type} (m : M A) (k : A -> M B) : M B :=
  fun db => let (a, db') := m db in k a db'.

Notation "x <- m ;; k" := (bind m (fun x => k))
  (at level 61, m at next level, right associativity).

(** The next entry of the failure schedule. *)
Definition call_fails : M bool :=
  fun db =>
    match faults db with
    | [] => (false, db)
    | b :: fs => (b, mkDB (rows db) (seq db) fs)
    end.

(** [ORDER BY id LIMIT 1]. *)
Fixpoint lowest_id (l : list User) : option User :=
  match l with
  | [] => None
  | u :: r =>
      match lowest_id r with
      | None => Some u
      | Some v => if ID u <=? ID v then Some u else Some v
      end
  end.

Definition has_id (n : Z) (rs : list User) : bool :=
  existsb (fun r => ID r =? n) rs.

Definition has_email (e : string) (rs : list User) : bool :=
  existsb (fun r => String.eqb (Email r) e) rs.

(** The two engines the repository runs on: PostgreSQL in [main], SQLite in
    the tests.  They differ in the order of a listing and in how the counter
    of ids moves. *)
Inductive dialect : Type := PostgreSQL | SQLite.

Fixpoint place (u : User) (l : list User) : list User :=
  match l with
  | [] => [u]
  | v :: r => if ID u <=? ID v then u :: l else v :: place u r
  end.

(** Rows by ascending key. *)
Fixpoint by_key (l : list User) : list User :=
  match l with
  | [] => []
  | u :: r => place u (by_key r)
  end.

(** The order of a SELECT without ORDER BY: PostgreSQL reads the rows as
    they lie, SQLite reads the table along its key. *)
Definition listing (d : dialect) (rs : list User) : list User :=
  match d with
  | PostgreSQL => rs
  | SQLite => by_key rs
  end.

(** The counter after a row with the key [k] of the client's choosing has
    been inserted: a PostgreSQL sequence takes no note of it, the counter
    of SQLite does not stay below it. *)
Definition counter_after_key (d : dialect) (s k : Z) : Z :=
  match d with
  | PostgreSQL => s
  | SQLite => Z.max s k
  end.

(** The counter after an INSERT that was to take the next key and was
    rejected: a PostgreSQL sequence has given the value out for good, the
    counter of SQLite has not moved. *)
Definition counter_after_reject (d : dialect) (s : Z) : Z :=
  match d with
  | PostgreSQL => s + 1
  | SQLite => s
  end.

(** The SQL engine behind gorm, as far as the handlers can tell engines
    apart.

    [sql_where] is the engine's reading of a condition text in a WHERE
    clause: [None] when the engine rejects the statement, otherwise the rows
    it keeps.

    [varchar100] is what a [varchar(100)] column stores for a text: [None]
    when the engine rejects it as too long, otherwise the stored text.
    (PostgreSQL stores a text of up to 100 characters as offered, and cuts a
    longer one to 100 when only spaces are cut; SQLite stores any text as
    offered.)

    [flavour] is which of the two engines it is. *)
Record Engine : Type := mkEngine {
  sql_where : string -> option (User -> bool);
  varchar100 : string -> option string;
  flavour : dialect
}.

(** A concrete reading of condition texts, used where an engine has to be
    named: the constant conditions [1=1] and [1=0] are evaluated, every other
    text is rejected. *)
Definition where_constants (cond : string) : option (User -> bool) :=
  if String.eqb cond "1=1" then Some (fun _ => true)
  else if String.eqb cond "1=0" then Some (fun _ => false)
  else None.

(** A concrete column for ASCII texts: a text of at most 100 bytes is
    stored as offered, a longer one is rejected. *)
Definition varchar_bytes (s : string) : option string :=
  if Nat.leb (String.length s) 100 then Some s else None.

Definition small_engine : Engine :=
  mkEngine where_constants varchar_bytes PostgreSQL.

(** The engine of the tests: the constant conditions again, every text
    stored as offered, and the ways of SQLite. *)
Definition sqlite_engine : Engine :=
  mkEngine where_constants (fun s => Some s) SQLite.

Section Server.

Variable E : Engine.

(** *** gorm calls *)

(** [Statement.BuildCondition] on the string [cond] and no further
    arguments: a string that [strconv.Atoi] accepts is the primary key, the
    empty string is no condition, and any other string is the text of a
    condition, which is why gorm's documentation asks callers not to pass a
    request's text to [First] as the handlers do.  (The router never binds
    [:id] to the empty string.) *)
Definition BuildCondition (cond : string) : option (User -> bool) :=
  match Atoi cond with
  | Some n => Some (fun u => ID u =? n)
  | None =>
      if String.eqb cond "" then Some (fun _ => true)
      else sql_where E cond
  end.

(** The SELECT of [First]: the row with the lowest id among those the
    condition keeps. *)
Definition select_first (rs : list User) (cond : string)
  : gorm_error + User :=
  match BuildCondition cond with
  | None => inl ErrEngine
  | Some keep =>
      match lowest_id (filter keep rs) with
      | None => inl ErrRecordNotFound
      | Some u => inr u
      end
  end.

(** [db.First(&user, cond)] with a zero-valued [user], as every handler
    calls it. *)
Definition First (cond : string) : M (gorm_error + User) :=
  failed <- call_fails ;;
  if (failed : bool) then ret (inl ErrEngine)
  else fun db => (select_first (rows db) cond, db).

(** [db.Find(&users)]: every row, in the order the engine lists them. *)
Definition Find : M (gorm_error + list User) :=
  failed <- call_fails ;;
  if (failed : bool) then ret (inl ErrEngine)
  else fun db => (inr (listing (flavour E) (rows db)), db).

(** INSERT of a row with the key [ID u]: the primary key and the unique
    index on [email] are checked against the rows present, the two texts
    against their columns.  A Go string is never NULL, so [not null] never
    rejects. *)
Definition insert (u : User) (rs : list User) : option (list User) :=
  match varchar100 E (Name u), varchar100 E (Email u) with
  | Some n, Some e =>
      if (has_id (ID u) rs || has_email e rs)%bool then None
      else Some (rs ++ [mkUser (ID u) n e])%list
  | _, _ => None
  end.

(** [db.Create(&user)].  A zero [ID] is left out of the INSERT and the
    counter supplies the key, which is written back into the struct; what
    becomes of the counter when that INSERT is rejected depends on the
    engine.  A non-zero [ID] is inserted as it is, and the engine says
    whether the counter takes note of it; when that INSERT is rejected the
    counter stays. *)
Definition Create (u : User) : M (User * option gorm_error) :=
  failed <- call_fails ;;
  if (failed : bool) then ret (u, Some ErrEngine)
  else fun db =>
    if ID u =? 0 then
      if seq db <? int_max then
        let id := seq db + 1 in
        let u' := mkUser id (Name u) (Email u) in
        match insert u' (rows db) with
        | Some rs => ((u', None), mkDB rs id (faults db))
        | None =>
            ((u, Some ErrEngine),
             mkDB (rows db) (counter_after_reject (flavour E) (seq db))
                  (faults db))
        end
      else ((u, Some ErrEngine), db)
    else
      match insert u (rows db) with
      | Some rs =>
          ((u, None),
           mkDB rs (counter_after_key (flavour E) (seq db) (ID u))
                (faults db))
      | None => ((u, Some ErrEngine), db)
      end.

(** UPDATE of [name] and [email] in the row with the key [ID u]. *)
Definition update (u : User) (rs : list User) : option (list User) :=
  match varchar100 E (Name u), varchar100 E (Email u) with
  | Some n, Some e =>
      if has_email e (filter (fun r => negb (ID r =? ID u)) rs) then None
      else Some (map (fun r => if ID r =? ID u then mkUser (ID r) n e
                               else r) rs)
  | _, _ => None
  end.

(** [db.Save(&user)]: [Create] when the key is zero; otherwise an UPDATE
    of all fields by key and, when that touches no row, an INSERT with
    the key. *)
Definition Save (u : User) : M (User * option gorm_error) :=
  if ID u =? 0 then Create u
  else
    failed <- call_fails ;;
    if (failed : bool) then ret (u, Some ErrEngine)
    else fun db =>
      if has_id (ID u) (rows db) then
        match update u (rows db) with
        | Some rs => ((u, None), mkDB rs (seq db) (faults db))
        | None => ((u, Some ErrEngine), db)
        end
      else
        match insert u (rows db) with
        | Some rs =>
            ((u, None),
             mkDB rs (counter_after_key (flavour E) (seq db) (ID u))
                  (faults db))
        | None => ((u, Some ErrEngine), db)
        end.

(** [db.Delete(&user)]: DELETE by key.  With a zero key gorm has no
    condition to put in the statement and refuses to send it. *)
Definition Delete (u : User) : M (option gorm_error) :=
  if ID u =? 0 then ret (Some ErrMissingWhereClause)
  else
    failed <- call_fails ;;
    if (failed : bool) then ret (Some ErrEngine)
    else fun db =>
      (None, mkDB (filter (fun r => negb (ID r =? ID u)) (rows db))
                  (seq db) (faults db)).

(** *** The handlers (main.go, lines 83-199) *)

Definition getUsers (c : Context) : M Response :=
  r <- Find ;;
  match r with
  | inl _ =>
      ret (JSON StatusInternalServerError
             (Failure (mkErrorResponse "Error fetching users")))
  | inr users => ret (JSON 200 (Users users))
  end.

Definition getUser (c : Context) : M Response :=
  let id := Param_id c in
  r <- First id ;;
  match r with
  | inl _ =>
      ret (JSON StatusNotFound (Failure (mkErrorResponse "User not found")))
  | inr user => ret (JSON 200 (OneUser user))
  end.

Definition createUser (c : Context) : M Response :=
  match ShouldBindJSON (Body c) zeroUser with
  | None =>
      ret (JSON StatusBadRequest (Failure (mkErrorResponse "Invalid input")))
  | Some user =>
      r <- Create user ;;
      match r with
      | (_, Some _) =>
          ret (JSON StatusInternalServerError
                 (Failure (mkErrorResponse "Failed to create user")))
      | (user', None) => ret (JSON 201 (OneUser user'))
      end
  end.

Definition updateUser (c : Context) : M Response :=
  let id := Param_id c in
  r <- First id ;;
  match r with
  | inl _ =>
      ret (JSON StatusNotFound (Failure (mkErrorResponse "User not found")))
  | inr user =>
      match ShouldBindJSON (Body c) user with
      | None =>
          ret (JSON StatusBadRequest
                 (Failure (mkErrorResponse "Invalid input")))
      | Some user' =>
          s <- Save user' ;;
          match s with
          | (_, Some _) =>
              ret (JSON StatusInternalServerError
                     (Failure (mkErrorResponse "Failed to update user")))
          | (user'', None) => ret (JSON 200 (OneUser user''))
          end
      end
  end.

Definition deleteUser (c : Context) : M Response :=
  let id := Param_id c in
  r <- First id ;;
  match r with
  | inl _ =>
      ret (JSON StatusNotFound (Failure (mkErrorResponse "User not found")))
  | inr user =>
      d <- Delete user ;;
      match d with
      | Some _ =>
          ret (JSON StatusInternalServerError
                 (Failure (mkErrorResponse "Failed to delete user")))
      | None => ret (JSON 200 (H "User deleted"))
      end
  end.

(** *** Derived notions used in the statements *)

(** A run of POST requests, one after the other. *)
Fixpoint creates (cs : list Context) (db : DB) : list Response * DB :=
  match cs with
  | [] => ([], db)
  | c :: r =>
      let (resp, db1) := createUser c db in
      let (resps, db2) := creates r db1 in
      (resp :: resps, db2)
  end.

(** The row the table holds for a user offered to it. *)
Definition stored_as (u r : User) : Prop :=
  ID r = ID u /\
  varchar100 E (Name u) = Some (Name r) /\
  varchar100 E (Email u) = Some (Email r).

(** A user whose two texts their columns store as offered. *)
Definition kept (u : User) : Prop :=
  varchar100 E (Name u) = Some (Name u) /\
  varchar100 E (Email u) = Some (Email u).

End Server.

(** The next [n] gorm calls are not hit by an outside failure. *)
Definition calm (n : nat) (db : DB) : Prop :=
  forallb negb (firstn n (faults db)) = true.

(** The object members [ms] name the field [f] nowhere. *)
Definition omits (f : field) (ms : list (string * json)) : Prop :=
  Forall (fun kv => field_of_key (fst kv) <> Some f) ms.

(** The invariant of the table: the sequence has not gone below its start,
    no key is zero, keys are unique and emails are unique. *)
Definition wf (db : DB) : Prop :=
  0 <= seq db /\
  Forall (fun r => ID r <> 0) (rows db) /\
  NoDup (map ID (rows db)) /\
  NoDup (map Email (rows db)).

(** ** Routing (main.go, lines 49-53, and [initializeRoutes] of the tests) *)

(** What the router reads from a request: the method, the path of the URL
    (decoded, as gin matches it) and the body. *)
Record Request : Type :=
  mkRequest { Method : string; Path : string; Sent : option json }.

(** A path cut at its slashes: ["/api/v1/users"] is the empty segment
    followed by [api], [v1] and [users]. *)
Fixpoint segments (s : string) : list string :=
  match s with
  | EmptyString => [EmptyString]
  | String c r =>
      if Ascii.eqb c "/" then EmptyString :: segments r
      else match segments r with
           | [] => [String c EmptyString]
           | seg :: rest => String c seg :: rest
           end
  end.

(** A route pattern against a path, segment by segment: a segment [:name]
    of the pattern binds [name] to any segment that is not empty, every
    other segment has to be equal.  The result lists the parameters. *)
Fixpoint match_segments (pat path : list string)
  : option (list (string * string)) :=
  match pat, path with
  | [], [] => Some []
  | String ":" name :: ps, seg :: ss =>
      if String.eqb seg "" then None
      else match match_segments ps ss with
           | Some params => Some ((name, seg) :: params)
           | None => None
           end
  | p :: ps, seg :: ss =>
      if String.eqb p seg then match_segments ps ss else None
  | _, _ => None
  end.

(** [c.Param(key)]: the value of the first parameter named [key], or the
    empty string. *)
Fixpoint Param (params : list (string * string)) (key : string) : string :=
  match params with
  | [] => ""
  | (k, v) :: r => if String.eqb k key then v else Param r key
  end.

Definition HandlerFunc : Type := Context -> M Response.

Section Router.

Variable E : Engine.

(** The five routes that [initializeRoutes] registers, and [main] as well
    (next to the route of the documentation, which is under [/swagger]
    and meets none of them). *)
Definition initializeRoutes : list (string * string * HandlerFunc) :=
  [ ("GET", "/api/v1/users", getUsers E);
    ("GET", "/api/v1/users/:id", getUser E);
    ("POST", "/api/v1/users", createUser E);
    ("PUT", "/api/v1/users/:id", updateUser E);
    ("DELETE", "/api/v1/users/:id", deleteUser E) ].

Definition route_matches (req : Request)
    (route : string * string * HandlerFunc)
  : option (list (string * string)) :=
  if String.eqb (Method req) (fst (fst route))
  then match_segments (segments (snd (fst route))) (segments (Path req))
  else None.

Fixpoint find_route (routes : list (string * string * HandlerFunc))
    (req : Request) : option (HandlerFunc * list (string * string)) :=
  match routes with
  | [] => None
  | route :: rest =>
      match route_matches req route with
      | Some params => Some (snd route, params)
      | None => find_route rest req
      end
  end.

(** [testRouter.ServeHTTP(w, req)] as far as the five handlers are
    concerned: the handler of the matching route runs on the request's
    parameters and body.  [None] is a request for which none of the five
    runs (the router answers it on its own, with a redirect or a 404, or,
    in [main], the route of the documentation does). *)
Definition ServeHTTP (req : Request) : M (option Response) :=
  match find_route initializeRoutes req with
  | Some (handler, params) =>
      resp <- handler (mkContext (Param params "id") (Sent req)) ;;
      ret (Some resp)
  | None => ret None
  end.

(** Requests served one after the other. *)
Fixpoint serve_all (reqs : list Request) : M (list (option Response)) :=
  match reqs with
  | [] => ret []
  | req :: rest =>
      resp <- ServeHTTP req ;;
      resps <- serve_all rest ;;
      ret (resp :: resps)
  end.

End Router.

(** ** The reset between tests ([resetDatabase] of the tests) *)

(** [db.Exec("DELETE FROM users")]; the caller drops the result. *)
Definition Exec_delete_users : M (option gorm_error) :=
  failed <- call_fails ;;
  if (failed : bool) then ret (Some ErrEngine)
  else fun db => (None, mkDB [] (seq db) (faults db)).

(** [db.Exec("DELETE FROM sqlite_sequence WHERE name='users'")]: the
    table's counter of ids starts over. *)
Definition Exec_delete_sequence : M (option gorm_error) :=
  failed <- call_fails ;;
  if (failed : bool) then ret (Some ErrEngine)
  else fun db => (None, mkDB (rows db) 0 (faults db)).

Definition resetDatabase : M unit :=
  _ <- Exec_delete_users ;;
  _ <- Exec_delete_sequence ;;
  ret tt.

(** ** Further notions used in statements *)

(** Keys and sequence within the range of [int]. *)
Definition ranged (db : DB) : Prop :=
  seq db <= int_max /\
  Forall (fun r => in_int (ID r) = true) (rows db).

Fixpoint has_slash (s : string) : bool :=
  match s with
  | EmptyString => false
  | String c r => (Ascii.eqb c "/" || has_slash r)%bool
  end.

(** The JSON values that decode into a field without an error: [null] for
    any field, an integer within [int] for the id, a string for the name
    and for the email. *)
Definition accepts (f : field) (v : json) : bool :=
  match f, v with
  | _, JNull => true
  | F_id, JInt z => in_int z
  | F_name, JString _ => true
  | F_email, JString _ => true
  | _, _ => false
  end.

(** A member the decoder has no complaint about: an unknown key, or a known
    one with a value its field accepts. *)
Definition member_ok (kv : string * json) : bool :=
  match field_of_key (fst kv) with
  | Some f => accepts f (snd kv)
  | None => true
  end.

(** Segments put together again, a slash between two. *)
Fixpoint join (l : list string) : string :=
  match l with
  | [] => ""
  | [x] => x
  | x :: r => x ++ "/" ++ join r
  end.

(** The path of one user. *)
Definition user_path (id : string) : string := "/api/v1/users/" ++ id.

(** ** Sample requests and tables *)

(** The user the update test seeds, and the table that holds it alone. *)
Definition eve : User := mkUser 1 "Eve" "eve@example.com".

Definition eve_db : DB := mkDB [eve] 1 [].

Definition user_json (i : Z) (n e : string) : option json :=
  Some (JObject [("id", JInt i); ("name", JString n); ("email", JString e)]).

(** The request of TestCreateUser: the JSON of
    [User{Name: "Dave", Email: "dave@example.com"}], which spells the zero
    id out. *)
Definition post_dave : Context :=
  mkContext "" (user_json 0 "Dave" "dave@example.com").

(** The same POST with an id of the client's choosing. *)
Definition post_dave_42 : Context :=
  mkContext "" (user_json 42 "Dave" "dave@example.com").

Definition post_alice : Context :=
  mkContext "" (user_json 0 "Alice" "alice@example.com").

Definition post_bob : Context :=
  mkContext "" (user_json 0 "Bob" "bob@example.com").

(** The request of TestUpdateUser: PUT /api/v1/users/1 with the JSON of
    [User{Name: "Eve Updated", Email: "eve.updated@example.com"}]. *)
Definition put_eve_updated : Context :=
  mkContext "1" (user_json 0 "Eve Updated" "eve.updated@example.com").

(** PUT /api/v1/users/1 with a body that names the name only. *)
Definition put_name_only : Context :=
  mkContext "1" (Some (JObject [("name", JString "Eve Updated")])).

(** Two users as two id-less POSTs on an empty table leave them. *)
Definition alice : User := mkUser 1 "Alice" "alice@example.com".

Definition bob : User := mkUser 2 "Bob" "bob@example.com".

Definition alice_bob_db : DB := mkDB [alice; bob] 2 [].

(** The POST of [post_alice] as the router sees it. *)
Definition post_alice_request : Request :=
  mkRequest "POST" "/api/v1/users" (user_json 0 "Alice" "alice@example.com").

(** A request without a body, for GET and DELETE. *)
Definition bare (id : string) : Context := mkContext id None.

(** ** Basic facts *)

Ltac inv_pairs :=
  repeat match goal with
  | H : (_, _) = (_, _) |- _ => inversion H; clear H; subst
  | H : Some _ = Some _ |- _ => inversion H; clear H; subst
  | H : inl _ = inl _ |- _ => inversion H; clear H; subst
  | H : inr _ = inr _ |- _ => inversion H; clear H; subst
  end.

Ltac step :=
  match goal with
  | |- context [match ?x with _ => _ end] => destruct x eqn:?
  | H : context [match ?x with _ => _ end] |- _ => destruct x eqn:?
  end; simpl in *; try congruence; inv_pairs; simpl in *.

Ltac open_gorm :=
  repeat (progress unfold getUsers, getUser, createUser, updateUser,
    deleteUser, First, Find, Create, Save, Delete, bind, ret, call_fails
    in * );
  simpl in *.

Lemma has_id_false (n : Z) (rs : list User) :
  has_id n rs = false <-> Forall (fun r => ID r <> n) rs.
Proof.
  unfold has_id. induction rs as [|r rs IH]; simpl.
  - split; auto.
  - rewrite orb_false_iff, IH, Z.eqb_neq. split.
    + intros [? ?]. constructor; auto.
    + inversion 1; auto.
Qed.

Lemma has_email_false (e : string) (rs : list User) :
  has_email e rs = false <-> Forall (fun r => Email r <> e) rs.
Proof.
  unfold has_email. induction rs as [|r rs IH]; simpl.
  - split; auto.
  - rewrite orb_false_iff, IH, String.eqb_neq. split.
    + intros [? ?]. constructor; auto.
    + inversion 1; auto.
Qed.

Lemma set_member_keeps (u u' : User) (kv : string * json) :
  set_member u kv = Some u' ->
  (field_of_key (fst kv) <> Some F_id -> ID u' = ID u) /\
  (field_of_key (fst kv) <> Some F_name -> Name u' = Name u) /\
  (field_of_key (fst kv) <> Some F_email -> Email u' = Email u).
Proof.
  unfold set_member.
  destruct (field_of_key (fst kv)) as [[]|]; destruct (snd kv);
    try destruct (in_int z); intros H; inversion H; subst; simpl;
    repeat split; congruence.
Qed.

(** Decoding an object leaves alone every field the object does not name. *)
Lemma set_members_keeps (ms : list (string * json)) :
  forall u u', set_members u ms = Some u' ->
  (omits F_id ms -> ID u' = ID u) /\
  (omits F_name ms -> Name u' = Name u) /\
  (omits F_email ms -> Email u' = Email u).
Proof.
  unfold omits. induction ms as [|kv ms IH]; simpl; intros u u' H.
  - inversion H; auto.
  - destruct (set_member u kv) as [u1|] eqn:H1; [|discriminate].
    destruct (set_member_keeps _ _ _ H1) as (Ki & Kn & Ke).
    destruct (IH _ _ H) as (Li & Ln & Le).
    repeat split; inversion 1; subst.
    + rewrite Li, Ki; auto.
    + rewrite Ln, Kn; auto.
    + rewrite Le, Ke; auto.
Qed.

Lemma lowest_id_In (l : list User) (u : User) :
  lowest_id l = Some u -> In u l.
Proof.
  revert u. induction l as [|a l IH]; simpl; intros u H; [discriminate|].
  destruct (lowest_id l) as [v|].
  - destruct (ID a <=? ID v); inversion H; subst; auto.
  - inversion H; auto.
Qed.

Lemma filter_id_absent (n : Z) (rs : list User) :
  has_id n rs = false -> filter (fun r => ID r =? n) rs = [].
Proof.
  unfold has_id. induction rs as [|r rs IH]; simpl; auto.
  intros H. apply orb_false_iff in H as [H1 H2]. rewrite H1. auto.
Qed.

Lemma filter_email_absent (e : string) (rs : list User) :
  has_email e rs = false -> filter (fun r => String.eqb (Email r) e) rs = [].
Proof.
  unfold has_email. induction rs as [|r rs IH]; simpl; auto.
  intros H. apply orb_false_iff in H as [H1 H2]. rewrite H1. auto.
Qed.

Lemma filter_id_unique (u : User) (rs : list User) :
  NoDup (map ID rs) -> In u rs -> filter (fun r => ID r =? ID u) rs = [u].
Proof.
  induction rs as [|r rs IH]; simpl; [tauto|].
  intros N [->|Hin]; inversion N as [|? ? Hn N']; subst.
  - rewrite Z.eqb_refl. f_equal. apply filter_id_absent.
    apply has_id_false. apply Forall_forall. intros x Hx Heq.
    apply Hn. rewrite <- Heq. now apply in_map.
  - destruct (ID r =? ID u) eqn:Hr.
    + apply Z.eqb_eq in Hr. exfalso. apply Hn. rewrite Hr. now apply in_map.
    + auto.
Qed.

Lemma calm_S (n : nat) (rs : list User) (s : Z) (b : bool) (fs : list bool) :
  calm (S n) (mkDB rs s (b :: fs)) -> b = false /\ calm n (mkDB rs s fs).
Proof.
  unfold calm. simpl. intros H. apply andb_true_iff in H as [H1 H2].
  destruct b; [discriminate|]. auto.
Qed.

Lemma User_eq (u r : User) :
  ID r = ID u -> Name r = Name u -> Email r = Email u -> r = u.
Proof. destruct u, r; simpl; congruence. Qed.

(** The JSON that [json.Marshal] writes for a [User] decodes into a zero
    struct as that user. *)
Lemma ShouldBindJSON_user_json (i : Z) (n e : string) :
  in_int i = true ->
  ShouldBindJSON (user_json i n e) zeroUser = Some (mkUser i n e).
Proof.
  intros H. unfold ShouldBindJSON, user_json, set_members, set_member.
  simpl. now rewrite H.
Qed.

(** *** The decimal text of an id reads back as the id *)

Lemma digit_digit_char (d : Z) :
  0 <= d <= 9 -> digit (digit_char d) = Some d.
Proof.
  intros H.
  assert (C : d = 0 \/ d = 1 \/ d = 2 \/ d = 3 \/ d = 4 \/ d = 5 \/
              d = 6 \/ d = 7 \/ d = 8 \/ d = 9) by lia.
  repeat (destruct C as [->|C]; [reflexivity|]). subst. reflexivity.
Qed.

Lemma utoa_S (f : nat) (n : Z) (acc : string) :
  utoa (S f) n acc
  = if n / 10 =? 0 then String (digit_char (n mod 10)) acc
    else utoa f (n / 10) (String (digit_char (n mod 10)) acc).
Proof. reflexivity. Qed.

Lemma digits_String (a : Z) (c : ascii) (r : string) :
  digits a (String c r)
  = match digit c with
    | Some d => digits (a * 10 + d) r
    | None => None
    end.
Proof. reflexivity. Qed.

Lemma utoa_cons (f : nat) :
  forall n c acc, exists c' r, utoa f n (String c acc) = String c' r.
Proof.
  induction f as [|f IH]; intros n c acc; [simpl; eauto|].
  rewrite utoa_S. destruct (n / 10 =? 0); [eauto | apply IH].
Qed.

Lemma utoa_S_cons (f : nat) (n : Z) (acc : string) :
  exists c r, utoa (S f) n acc = String c r.
Proof.
  rewrite utoa_S. destruct (n / 10 =? 0); [eauto | apply utoa_cons].
Qed.

Lemma digits_utoa (f : nat) :
  forall n acc, 0 < n < 10 ^ Z.of_nat f ->
  exists k, 0 <= k /\
    forall a, digits a (utoa f n acc) = digits (a * 10 ^ k + n) acc.
Proof.
  induction f as [|f IH]; intros n acc Hn.
  - change (10 ^ Z.of_nat 0) with 1 in Hn. lia.
  - rewrite Nat2Z.inj_succ, Z.pow_succ_r in Hn by lia.
    assert (Hd : 0 <= n mod 10 <= 9)
      by (pose proof (Z.mod_pos_bound n 10); lia).
    pose proof (Z.div_mod n 10 ltac:(lia)) as Hdm.
    rewrite utoa_S. destruct (n / 10 =? 0) eqn:Hq.
    + apply Z.eqb_eq in Hq. exists 1. split; [lia|]. intros a.
      rewrite digits_String, digit_digit_char by assumption.
      f_equal. rewrite Z.pow_1_r. lia.
    + apply Z.eqb_neq in Hq.
      assert (Hn' : 0 < n / 10 < 10 ^ Z.of_nat f).
      { split.
        - pose proof (Z.div_pos n 10). lia.
        - apply Z.div_lt_upper_bound; lia. }
      destruct (IH (n / 10) (String (digit_char (n mod 10)) acc) Hn')
        as (k & Hk & Hdig).
      exists (k + 1). split; [lia|]. intros a.
      rewrite Hdig, digits_String, digit_digit_char by assumption.
      f_equal. rewrite Z.pow_add_r, Z.pow_1_r by lia. lia.
Qed.

Lemma digits_utoa_20 (n : Z) :
  0 <= n <= 2 ^ 63 -> digits 0 (utoa 20 n "") = Some n.
Proof.
  intros Hn. destruct (Z.eq_dec n 0) as [->|Hz]; [reflexivity|].
  destruct (digits_utoa 20 n "") as (k & _ & Hdig).
  - change (10 ^ Z.of_nat 20) with 100000000000000000000.
    change (2 ^ 63) with 9223372036854775808 in Hn. lia.
  - rewrite Hdig. reflexivity.
Qed.

Lemma Atoi_unsigned (c : ascii) (r : string) (d n : Z) :
  digit c = Some d -> digits 0 (String c r) = Some n -> in_int n = true ->
  Atoi (String c r) = Some n.
Proof.
  intros Hd Hn Hr.
  destruct c as [[] [] [] [] [] [] [] []];
    try (simpl in Hd; discriminate);
    cbv beta iota zeta delta [Atoi]; rewrite Hn, Hr; reflexivity.
Qed.

(** Every id an [int] can hold has a path text that reads as it. *)
Lemma Atoi_Itoa (z : Z) : in_int z = true -> Atoi (Itoa z) = Some z.
Proof.
  unfold in_int, int_min, int_max. intros H.
  apply andb_true_iff in H as [Hlo Hhi].
  apply Z.leb_le in Hlo, Hhi. unfold Itoa.
  destruct (z <? 0) eqn:Hneg.
  - apply Z.ltb_lt in Hneg.
    pose proof (digits_utoa_20 (- z) ltac:(lia)) as Hd.
    destruct (utoa_S_cons 19 (- z) "") as (c & r & Hu).
    change (S 19) with 20%nat in Hu. rewrite Hu in *.
    cbv beta iota zeta delta [Atoi]. rewrite Hd, Z.opp_involutive.
    unfold in_int, int_min, int_max.
    replace ((- 2 ^ 63 <=? z) && (z <=? 2 ^ 63 - 1))%bool with true;
      [reflexivity|].
    symmetry. apply andb_true_iff. split; now apply Z.leb_le.
  - apply Z.ltb_ge in Hneg.
    pose proof (digits_utoa_20 z ltac:(lia)) as Hd.
    destruct (utoa_S_cons 19 z "") as (c & r & Hu).
    change (S 19) with 20%nat in Hu. rewrite Hu in *.
    assert (exists d, digit c = Some d) as [d Hc].
    { simpl in Hd. destruct (digit c) as [d|]; [eauto | discriminate]. }
    apply Atoi_unsigned with d; auto.
    unfold in_int, int_min, int_max.
    apply andb_true_iff. split; apply Z.leb_le; lia.
Qed.

(** *** The order of a listing *)

Lemma place_all (u : User) (l : list User) : Permutation (u :: l) (place u l).
Proof.
  induction l as [|v r IH]; simpl; [apply Permutation_refl|].
  destruct (ID u <=? ID v); [apply Permutation_refl|].
  apply perm_trans with (v :: u :: r); [apply perm_swap|].
  now apply perm_skip.
Qed.

Lemma by_key_all (l : list User) : Permutation l (by_key l).
Proof.
  induction l as [|u r IH]; simpl; [apply perm_nil|].
  apply perm_trans with (u :: by_key r); [now apply perm_skip|].
  apply place_all.
Qed.

(** A listing holds every row once, whatever the engine. *)
Lemma listing_all (d : dialect) (rs : list User) :
  Permutation rs (listing d rs).
Proof. destruct d; [apply Permutation_refl | apply by_key_all]. Qed.

(** *** The counter of ids *)

Lemma counter_after_key_lower (d : dialect) (s k : Z) :
  s <= counter_after_key d s k.
Proof. destruct d; simpl; lia. Qed.

Lemma counter_after_key_upper (d : dialect) (s k b : Z) :
  s <= b -> k <= b -> counter_after_key d s k <= b.
Proof. destruct d; simpl; lia. Qed.

Lemma counter_after_reject_bounds (d : dialect) (s : Z) :
  s <= counter_after_reject d s <= s + 1.
Proof. destruct d; simpl; lia. Qed.

Section Facts.

Variable E : Engine.

Lemma First_rows (id : string) (db : DB) :
  rows (snd (First E id db)) = rows db /\ seq (snd (First E id db)) = seq db.
Proof. open_gorm. repeat step; auto. Qed.

Lemma insert_rows (u : User) (rs rs' : list User) :
  insert E u rs = Some rs' ->
  exists r, rs' = (rs ++ [r])%list /\ stored_as E u r /\
            has_id (ID u) rs = false /\ has_email (Email r) rs = false.
Proof.
  unfold insert, stored_as. intros H. repeat step.
  apply orb_false_iff in Heqb as [? ?].
  eexists; repeat split; simpl; eauto.
Qed.

Lemma update_ids (u : User) (rs rs' : list User) :
  update E u rs = Some rs' -> map ID rs' = map ID rs.
Proof.
  unfold update. intros H. repeat step.
  rewrite map_map. apply map_ext. intros r. destruct (ID r =? ID u); auto.
Qed.

(** **** What [First] finds *)

Lemma select_first_absent (id : string) (n : Z) (rs : list User) :
  Atoi id = Some n -> has_id n rs = false ->
  select_first E rs id = inl ErrRecordNotFound.
Proof.
  intros Ha Hn. unfold select_first, BuildCondition. rewrite Ha.
  now rewrite filter_id_absent.
Qed.

Lemma select_first_present (id : string) (u : User) (rs : list User) :
  Atoi id = Some (ID u) -> NoDup (map ID rs) -> In u rs ->
  select_first E rs id = inr u.
Proof.
  intros Ha Hn Hin. unfold select_first, BuildCondition. rewrite Ha.
  rewrite filter_id_unique by assumption. reflexivity.
Qed.

Lemma select_first_last (id : string) (r : User) (rs : list User) :
  Atoi id = Some (ID r) -> has_id (ID r) rs = false ->
  select_first E (rs ++ [r]) id = inr r.
Proof.
  intros Ha Hn. unfold select_first, BuildCondition. rewrite Ha.
  rewrite filter_app, filter_id_absent by assumption. simpl.
  now rewrite Z.eqb_refl.
Qed.

Lemma select_first_In (id : string) (u : User) (rs : list User) :
  select_first E rs id = inr u -> In u rs.
Proof.
  unfold select_first. intros H. repeat step.
  apply lowest_id_In in Heqo0. apply filter_In in Heqo0. tauto.
Qed.

Lemma First_found (id : string) (db db' : DB) (u : User) :
  First E id db = (inr u, db') ->
  select_first E (rows db) id = inr u /\ rows db' = rows db /\
  seq db' = seq db.
Proof. open_gorm. intros H. repeat step; auto. Qed.

Lemma First_calm (id : string) (db : DB) :
  calm 1 db -> fst (First E id db) = select_first E (rows db) id.
Proof.
  destruct db as [rs s [|b fs]]; [reflexivity|].
  intros H. apply calm_S in H as [-> _]. reflexivity.
Qed.

(** **** What a successful POST has done *)

Lemma Create_ok (u u' : User) (db db' : DB) :
  Create E u db = (u', None, db') ->
  exists r,
    Name u' = Name u /\ Email u' = Email u /\
    (ID u <> 0 ->
     ID u' = ID u /\
     seq db' = counter_after_key (flavour E) (seq db) (ID u)) /\
    (ID u = 0 -> ID u' = seq db + 1 /\ seq db' = seq db + 1) /\
    rows db' = (rows db ++ [r])%list /\
    stored_as E u' r /\
    has_id (ID u') (rows db) = false /\
    has_email (Email r) (rows db) = false.
Proof.
  assert (G : forall rs s fs,
    (if ID u =? 0
     then if s <? int_max
          then match insert E (mkUser (s + 1) (Name u) (Email u)) rs with
               | Some rs' =>
                   (mkUser (s + 1) (Name u) (Email u), None,
                    mkDB rs' (s + 1) fs)
               | None =>
                   (u, Some ErrEngine,
                    mkDB rs (counter_after_reject (flavour E) s) fs)
               end
          else (u, Some ErrEngine, mkDB rs s fs)
     else match insert E u rs with
          | Some rs' =>
              (u, None,
               mkDB rs' (counter_after_key (flavour E) s (ID u)) fs)
          | None => (u, Some ErrEngine, mkDB rs s fs)
          end) = (u', None, db') ->
    exists r,
      Name u' = Name u /\ Email u' = Email u /\
      (ID u <> 0 ->
       ID u' = ID u /\ seq db' = counter_after_key (flavour E) s (ID u)) /\
      (ID u = 0 -> ID u' = s + 1 /\ seq db' = s + 1) /\
      rows db' = (rs ++ [r])%list /\
      stored_as E u' r /\
      has_id (ID u') rs = false /\
      has_email (Email r) rs = false).
  { intros rs s fs H.
    destruct (ID u =? 0) eqn:Hz.
    - apply Z.eqb_eq in Hz.
      destruct (s <? int_max); [|discriminate].
      destruct (insert E _ rs) as [rs'|] eqn:Hi; [|discriminate].
      inversion H; subst; clear H.
      apply insert_rows in Hi as (r & -> & Hs & Hid & He).
      exists r. simpl in *. intuition congruence.
    - apply Z.eqb_neq in Hz.
      destruct (insert E u rs) as [rs'|] eqn:Hi; [|discriminate].
      inversion H; subst; clear H.
      apply insert_rows in Hi as (r & -> & Hs & Hid & He).
      exists r. simpl in *. intuition congruence. }
  destruct db as [rs s [|[] fs]]; unfold Create, bind, ret, call_fails;
    simpl; try discriminate; apply G.
Qed.

Lemma createUser_created (c : Context) (db db1 : DB) (p : payload) :
  createUser E c db = (JSON 201 p, db1) ->
  exists u0 u r,
    ShouldBindJSON (Body c) zeroUser = Some u0 /\
    p = OneUser u /\
    Name u = Name u0 /\ Email u = Email u0 /\
    (ID u0 <> 0 ->
     ID u = ID u0 /\
     seq db1 = counter_after_key (flavour E) (seq db) (ID u0)) /\
    (ID u0 = 0 -> ID u = seq db + 1 /\ seq db1 = seq db + 1) /\
    rows db1 = (rows db ++ [r])%list /\
    stored_as E u r /\
    has_id (ID u) (rows db) = false /\
    has_email (Email r) (rows db) = false.
Proof.
  unfold createUser, bind, ret. intros H.
  destruct (ShouldBindJSON (Body c) zeroUser) as [u0|] eqn:Hb;
    [|discriminate].
  destruct (Create E u0 db) as [[u [e|]] db'] eqn:Hc; [discriminate|].
  inversion H; subst; clear H.
  apply Create_ok in Hc as (r & ? & ? & ? & ? & ? & ? & ? & ?).
  exists u0, u, r. intuition auto.
Qed.

Lemma stored_kept (u r : User) : stored_as E u r -> kept E u -> r = u.
Proof.
  intros (Hi & Hn & He) (Kn & Ke). apply User_eq; congruence.
Qed.

Lemma insert_dup_email (u : User) (e : string) (rs : list User) :
  varchar100 E (Email u) = Some e -> has_email e rs = true ->
  insert E u rs = None.
Proof.
  unfold insert. intros -> He.
  destruct (varchar100 E (Name u)); [|reflexivity].
  now rewrite He, orb_true_r.
Qed.

Lemma Create_dup_email (u : User) (e : string) (db : DB) :
  varchar100 E (Email u) = Some e -> has_email e (rows db) = true ->
  exists u' err db',
    Create E u db = (u', Some err, db') /\ rows db' = rows db.
Proof.
  intros Hv He.
  assert (I1 : forall i, insert E (mkUser i (Name u) (Email u)) (rows db)
                         = None)
    by (intros i; now apply insert_dup_email with e).
  assert (I2 : insert E u (rows db) = None)
    by now apply insert_dup_email with e.
  destruct db as [rs s [|[] fs]]; unfold Create, bind, ret, call_fails;
    simpl in *;
    try (destruct (ID u =? 0); [destruct (s <? int_max)|];
         rewrite ?I1, ?I2);
    eauto.
Qed.

Lemma creates_rows (cs : list Context) :
  forall db resps db' us,
    creates E cs db = (resps, db') ->
    Forall2 (fun resp u => resp = JSON 201 (OneUser u)) resps us ->
    exists rs, rows db' = (rows db ++ rs)%list /\
               Forall2 (stored_as E) us rs.
Proof.
  induction cs as [|c cs IH]; simpl; intros db resps db' us H F.
  - inversion H; subst. inversion F; subst.
    exists []. now rewrite app_nil_r.
  - destruct (createUser E c db) as [resp db1] eqn:Hc.
    destruct (creates E cs db1) as [resps' db2] eqn:Hcs.
    inversion H; subst; clear H.
    inversion F as [|? u ? us' Hr F']; subst.
    apply createUser_created in Hc
      as (u0 & u' & r & _ & Hp & _ & _ & _ & _ & Hrows & Hs & _ & _).
    inversion Hp; subst u'.
    destruct (IH _ _ _ _ Hcs F') as (rs & Hrs & Fs).
    exists (r :: rs). split.
    + rewrite Hrs, Hrows, <- app_assoc. reflexivity.
    + constructor; assumption.
Qed.

Lemma stored_all_kept (us rs : list User) :
  Forall2 (stored_as E) us rs -> Forall (kept E) us -> rs = us.
Proof.
  induction 1 as [|u r us rs Hs F IH]; intros K; [reflexivity|].
  inversion K; subst. f_equal; [now apply stored_kept | auto].
Qed.

Lemma getUsers_calm (c : Context) (db : DB) :
  calm 1 db ->
  fst (getUsers E c db) = JSON 200 (Users (listing (flavour E) (rows db))).
Proof.
  destruct db as [rs s [|b fs]]; [reflexivity|].
  intros H. apply calm_S in H as [-> _]. reflexivity.
Qed.

(** **** What [Save] and [Delete] have done *)

Lemma has_id_In (u : User) (rs : list User) :
  In u rs -> has_id (ID u) rs = true.
Proof.
  intros H. unfold has_id. apply existsb_exists. exists u.
  split; [assumption | apply Z.eqb_refl].
Qed.

Lemma update_rows (u : User) (rs rs' : list User) :
  update E u rs = Some rs' ->
  exists n e,
    varchar100 E (Name u) = Some n /\ varchar100 E (Email u) = Some e /\
    rs' = map (fun r => if ID r =? ID u then mkUser (ID r) n e else r) rs.
Proof.
  unfold update. intros H.
  destruct (varchar100 E (Name u)) as [n|]; [|discriminate].
  destruct (varchar100 E (Email u)) as [e|]; [|discriminate].
  destruct (has_email e _); [discriminate|].
  inversion H. eauto.
Qed.

Lemma update_stored (u : User) (rs rs' : list User) :
  update E u rs = Some rs' -> has_id (ID u) rs = true ->
  exists r, In r rs' /\ stored_as E u r.
Proof.
  intros H Hid. apply update_rows in H as (n & e & Hn & He & ->).
  apply existsb_exists in Hid as (r0 & Hin & Heq).
  exists (mkUser (ID r0) n e). split.
  - apply in_map_iff. exists r0. rewrite Heq. auto.
  - apply Z.eqb_eq in Heq. unfold stored_as. simpl. auto.
Qed.

Lemma Save_keyed (u : User) (db : DB) :
  ID u <> 0 ->
  Save E u db =
  (failed <- call_fails ;;
   if (failed : bool) then ret (u, Some ErrEngine)
   else fun db =>
     if has_id (ID u) (rows db) then
       match update E u (rows db) with
       | Some rs => ((u, None), mkDB rs (seq db) (faults db))
       | None => ((u, Some ErrEngine), db)
       end
     else
       match insert E u (rows db) with
       | Some rs =>
           ((u, None),
            mkDB rs (counter_after_key (flavour E) (seq db) (ID u))
                 (faults db))
       | None => ((u, Some ErrEngine), db)
       end) db.
Proof.
  intros H. apply Z.eqb_neq in H. unfold Save. now rewrite H.
Qed.

Lemma Save_ok_keyed (u u' : User) (db db' : DB) :
  ID u <> 0 ->
  Save E u db = (u', None, db') ->
  u' = u /\
  seq db' = (if has_id (ID u) (rows db) then seq db
             else counter_after_key (flavour E) (seq db) (ID u)) /\
  exists rs',
    rows db' = rs' /\
    (if has_id (ID u) (rows db) then update E u (rows db)
     else insert E u (rows db)) = Some rs'.
Proof.
  intros Hz. rewrite Save_keyed by assumption.
  destruct db as [rs s [|[] fs]]; unfold bind, ret, call_fails;
    cbn [faults rows seq]; try discriminate;
    (destruct (has_id (ID u) rs);
     [ destruct (update E u rs) as [rs'|]
     | destruct (insert E u rs) as [rs'|] ]; try discriminate;
     intros H; inversion H; subst; cbn [rows seq]; eauto).
Qed.

Lemma Save_ok_stored (u u' : User) (db db' : DB) :
  Save E u db = (u', None, db') ->
  Name u' = Name u /\ Email u' = Email u /\
  exists r, In r (rows db') /\ stored_as E u' r.
Proof.
  intros H. destruct (Z.eq_dec (ID u) 0) as [Hz|Hz].
  - unfold Save in H. apply Z.eqb_eq in Hz. rewrite Hz in H.
    apply Create_ok in H as (r & Hn & He & _ & _ & Hr & Hs & _).
    repeat split; auto. exists r. split; [|assumption].
    rewrite Hr. apply in_or_app. right. now left.
  - apply Save_ok_keyed in H as (-> & _ & rs' & <- & Hc); [|assumption].
    repeat split; auto.
    destruct (has_id (ID u) (rows db)) eqn:Hid.
    + now apply update_stored with (rows db).
    + apply insert_rows in Hc as (r & Hr & Hs & _).
      exists r. split; [|assumption].
      rewrite Hr. apply in_or_app. right. now left.
Qed.

Lemma getUser_absent (g : Context) (n : Z) (db : DB) :
  Atoi (Param_id g) = Some n -> has_id n (rows db) = false ->
  fst (getUser E g db)
  = JSON StatusNotFound (Failure (mkErrorResponse "User not found")).
Proof.
  intros Ha Hn.
  destruct db as [rs s [|[] fs]]; unfold getUser, First, bind, ret,
    call_fails; simpl in *; try reflexivity;
    now rewrite (select_first_absent _ _ _ Ha Hn).
Qed.

Lemma has_id_filter_out (n : Z) (rs : list User) :
  has_id n (filter (fun r => negb (ID r =? n)) rs) = false.
Proof.
  apply has_id_false. apply Forall_forall. intros r Hr.
  apply filter_In in Hr as [_ Hr]. apply negb_true_iff in Hr.
  now apply Z.eqb_neq.
Qed.

(** X20.  A POST that has all it needs is answered 201: a body that decodes
    to a user without an id, no outside failure, a sequence that is not used up
    and whose next value is the key of no row, texts their columns accept,
    and an email no row holds. *)
Lemma createUser_succeeds (c : Context) (db : DB) (u0 : User) (n e : string) :
  ShouldBindJSON (Body c) zeroUser = Some u0 ->
  ID u0 = 0 ->
  calm 1 db ->
  seq db < int_max ->
  varchar100 E (Name u0) = Some n ->
  varchar100 E (Email u0) = Some e ->
  has_id (seq db + 1) (rows db) = false ->
  has_email e (rows db) = false ->
  createUser E c db
  = (JSON 201 (OneUser (mkUser (seq db + 1) (Name u0) (Email u0))),
     mkDB (rows db ++ [mkUser (seq db + 1) n e]) (seq db + 1)
          (tl (faults db))).
Proof.
  intros HB Hz Hc Hs Hn He Hid Hem.
  unfold createUser, Create, bind, ret, call_fails. rewrite HB.
  apply Z.ltb_lt in Hs.
  destruct db as [rs s [|b fs]]; simpl in *;
    [| apply calm_S in Hc as [-> _] ];
    rewrite Hz; simpl; rewrite Hs; unfold insert; simpl;
    rewrite Hn, He, Hid, Hem; reflexivity.
Qed.

(** **** The invariant *)

Lemma wf_frame (db db' : DB) :
  rows db' = rows db -> seq db <= seq db' -> wf db -> wf db'.
Proof.
  unfold wf. intros -> Hs (H0 & H1 & H2 & H3). repeat split; auto. lia.
Qed.

Lemma wf_insert (u : User) (rs rs' : list User) (s s' : Z)
      (fs fs' : list bool) :
  wf (mkDB rs s fs) -> insert E u rs = Some rs' -> ID u <> 0 -> 0 <= s' ->
  wf (mkDB rs' s' fs').
Proof.
  unfold wf; simpl. intros (H0 & H1 & H2 & H3) Hi Hz Hs'.
  apply insert_rows in Hi as (r & -> & (Hid & _ & _) & Hn & He).
  rewrite !map_app; simpl. repeat split; auto.
  - apply Forall_app. split; auto. constructor; auto. congruence.
  - apply NoDup_app; auto.
    + constructor; [simpl; tauto | constructor].
    + intros x Hx [<-|[]]. rewrite Hid in Hx.
      apply in_map_iff in Hx as (y & Hy & Hin).
      apply has_id_false in Hn. rewrite Forall_forall in Hn.
      now apply (Hn y).
  - apply NoDup_app; auto.
    + constructor; [simpl; tauto | constructor].
    + intros x Hx [<-|[]].
      apply in_map_iff in Hx as (y & Hy & Hin).
      apply has_email_false in He. rewrite Forall_forall in He.
      now apply (He y).
Qed.

Lemma update_emails (n e : string) (k : Z) (rs : list User) :
  NoDup (map ID rs) -> NoDup (map Email rs) ->
  has_email e (filter (fun r => negb (ID r =? k)) rs) = false ->
  NoDup (map Email
           (map (fun r => if ID r =? k then mkUser (ID r) n e else r) rs)).
Proof.
  induction rs as [|a rs IH]; simpl; intros Ni Ne He; [constructor|].
  inversion Ni as [|? ? Hai Ni']; inversion Ne as [|? ? Hae Ne']; subst.
  destruct (ID a =? k) eqn:Hk; simpl in *.
  - apply Z.eqb_eq in Hk. specialize (IH Ni' Ne' He).
    constructor; [|assumption].
    intros Hin. apply in_map_iff in Hin as (y & Hy & Hin).
    apply in_map_iff in Hin as (r & <- & Hr).
    assert (Hrk : (ID r =? k) = false).
    { apply Z.eqb_neq. intros Heq. apply Hai. rewrite Hk, <- Heq.
      now apply in_map. }
    rewrite Hrk in Hy.
    apply has_email_false in He. rewrite Forall_forall in He.
    apply (He r); [|assumption].
    apply filter_In. split; [assumption|]. now rewrite Hrk.
  - apply orb_false_iff in He as [Ha He]. apply String.eqb_neq in Ha.
    constructor; [|auto].
    intros Hin. apply in_map_iff in Hin as (y & Hy & Hin).
    apply in_map_iff in Hin as (r & <- & Hr).
    destruct (ID r =? k); simpl in Hy; [congruence|].
    apply Hae. rewrite <- Hy. now apply in_map.
Qed.

Lemma wf_update (u : User) (rs rs' : list User) (s : Z)
      (fs fs' : list bool) :
  wf (mkDB rs s fs) -> update E u rs = Some rs' -> wf (mkDB rs' s fs').
Proof.
  unfold wf; simpl. intros (H0 & H1 & H2 & H3) Hu.
  pose proof (update_ids _ _ _ Hu) as Hids.
  unfold update in Hu.
  destruct (varchar100 E (Name u)) as [n|]; [|discriminate].
  destruct (varchar100 E (Email u)) as [e|]; [|discriminate].
  destruct (has_email e _) eqn:He; [discriminate|].
  inversion Hu; subst; clear Hu. repeat split; auto.
  - apply Forall_forall. intros x Hx.
    apply in_map_iff in Hx as (r & <- & Hr).
    rewrite Forall_forall in H1. specialize (H1 r Hr).
    destruct (ID r =? ID u); auto.
  - now rewrite Hids.
  - now apply update_emails.
Qed.

Lemma NoDup_map_filter {A B : Type} (g : A -> B) (keep : A -> bool)
      (l : list A) :
  NoDup (map g l) -> NoDup (map g (filter keep l)).
Proof.
  induction l as [|a l IH]; simpl; intros N; [constructor|].
  inversion N as [|? ? Ha N']; subst.
  destruct (keep a); simpl; auto.
  constructor; auto.
  intros Hin. apply Ha. apply in_map_iff in Hin as (y & Hy & Hin).
  apply filter_In in Hin as [Hin _]. rewrite <- Hy. now apply in_map.
Qed.

Lemma wf_delete (keep : User -> bool) (rs : list User) (s : Z)
      (fs fs' : list bool) :
  wf (mkDB rs s fs) -> wf (mkDB (filter keep rs) s fs').
Proof.
  unfold wf; simpl. intros (H0 & H1 & H2 & H3). repeat split; auto.
  - apply Forall_forall. intros x Hx. apply filter_In in Hx as [Hx _].
    rewrite Forall_forall in H1. auto.
  - now apply NoDup_map_filter.
  - now apply NoDup_map_filter.
Qed.

Lemma wf_Create (u : User) (db : DB) : wf db -> wf (snd (Create E u db)).
Proof.
  intros W. destruct db as [rs s fs].
  assert (Hs : 0 <= s) by apply W.
  pose proof (counter_after_key_lower (flavour E) s (ID u)) as Hk.
  pose proof (counter_after_reject_bounds (flavour E) s) as Hj.
  destruct fs as [|[] fs]; unfold Create, bind, ret, call_fails;
    cbn [faults rows seq fst snd]; try exact W;
    (destruct (ID u =? 0) eqn:Hz;
     [ destruct (s <? int_max); [|exact W];
       destruct (insert E _ rs) as [rs'|] eqn:Hi; cbn [snd];
       [ eapply wf_insert; [exact W | exact Hi | cbn [ID]; lia | lia]
       | apply wf_frame with (mkDB rs s []);
         [reflexivity | cbn [seq]; lia | exact W] ]
     | apply Z.eqb_neq in Hz;
       destruct (insert E u rs) as [rs'|] eqn:Hi; cbn [snd];
       [ eapply wf_insert; [exact W | exact Hi | exact Hz | lia]
       | exact W ] ]).
Qed.

Lemma wf_Save (u : User) (db : DB) : wf db -> wf (snd (Save E u db)).
Proof.
  intros W. destruct (Z.eq_dec (ID u) 0) as [Hz|Hz].
  - unfold Save. apply Z.eqb_eq in Hz. rewrite Hz. now apply wf_Create.
  - rewrite Save_keyed by assumption.
    destruct db as [rs s fs].
    assert (Hs : 0 <= s) by apply W.
    pose proof (counter_after_key_lower (flavour E) s (ID u)) as Hk.
    destruct fs as [|[] fs]; unfold bind, ret, call_fails;
      cbn [faults rows seq fst snd]; try exact W;
      (destruct (has_id (ID u) rs);
       [ destruct (update E u rs) as [rs'|] eqn:Hu; cbn [snd];
         [ eapply wf_update; [exact W | exact Hu] | exact W ]
       | destruct (insert E u rs) as [rs'|] eqn:Hi; cbn [snd];
         [ eapply wf_insert; [exact W | exact Hi | exact Hz | lia]
         | exact W ] ]).
Qed.

Lemma wf_Delete (u : User) (db : DB) : wf db -> wf (snd (Delete u db)).
Proof.
  intros W. destruct db as [rs s fs]. unfold Delete.
  destruct (ID u =? 0); [exact W|].
  destruct fs as [|[] fs]; unfold bind, ret, call_fails; simpl;
    try exact W; now apply wf_delete with (@nil bool).
Qed.

Lemma wf_First (id : string) (db : DB) : wf db -> wf (snd (First E id db)).
Proof.
  intros W. destruct (First_rows id db) as [Hr Hs].
  apply wf_frame with db; auto. lia.
Qed.

(** Every handler keeps the invariant, and the empty table has it. *)
Lemma wf_empty (fs : list bool) : wf (emptyDB fs).
Proof.
  unfold wf; simpl. repeat split; try constructor. lia.
Qed.

Lemma wf_createUser (c : Context) (db : DB) :
  wf db -> wf (snd (createUser E c db)).
Proof.
  intros W. unfold createUser, bind, ret.
  destruct (ShouldBindJSON (Body c) zeroUser) as [u|]; [|exact W].
  pose proof (wf_Create u db W) as W'.
  destruct (Create E u db) as [[u' [e|]] db']; exact W'.
Qed.

Lemma wf_updateUser (c : Context) (db : DB) :
  wf db -> wf (snd (updateUser E c db)).
Proof.
  intros W. unfold updateUser, bind, ret.
  pose proof (wf_First (Param_id c) db W) as W1.
  destruct (First E (Param_id c) db) as [[e|U] db1]; [exact W1|].
  simpl in W1.
  destruct (ShouldBindJSON (Body c) U) as [u|]; [|exact W1].
  pose proof (wf_Save u db1 W1) as W2.
  destruct (Save E u db1) as [[u' [e|]] db2]; exact W2.
Qed.

Lemma wf_deleteUser (c : Context) (db : DB) :
  wf db -> wf (snd (deleteUser E c db)).
Proof.
  intros W. unfold deleteUser, bind, ret.
  pose proof (wf_First (Param_id c) db W) as W1.
  destruct (First E (Param_id c) db) as [[e|U] db1]; [exact W1|].
  simpl in W1.
  pose proof (wf_Delete U db1 W1) as W2.
  destruct (Delete U db1) as [[e|] db2]; exact W2.
Qed.

(** **** Error responses leave the rows alone *)

Lemma getUsers_frame (c : Context) (db : DB) :
  rows (snd (getUsers E c db)) = rows db /\
  seq (snd (getUsers E c db)) = seq db.
Proof. open_gorm. repeat step; auto. Qed.

Lemma getUser_frame (c : Context) (db : DB) :
  rows (snd (getUser E c db)) = rows db /\
  seq (snd (getUser E c db)) = seq db.
Proof. open_gorm. repeat step; auto. Qed.

Lemma createUser_error (c : Context) (db : DB) :
  code (fst (createUser E c db)) <> 201 ->
  rows (snd (createUser E c db)) = rows db.
Proof. open_gorm. repeat step; auto. Qed.

Lemma updateUser_error (c : Context) (db : DB) :
  code (fst (updateUser E c db)) <> 200 ->
  rows (snd (updateUser E c db)) = rows db.
Proof. open_gorm. repeat step; auto. Qed.

Lemma deleteUser_error (c : Context) (db : DB) :
  code (fst (deleteUser E c db)) <> 200 ->
  rows (snd (deleteUser E c db)) = rows db.
Proof. open_gorm. repeat step; auto. Qed.

(** **** Calls that no outside failure hits *)

Lemma First_calm_eq (id : string) (n : nat) (db : DB) :
  calm (S n) db ->
  exists db', First E id db = (select_first E (rows db) id, db') /\
              rows db' = rows db /\ seq db' = seq db /\ calm n db'.
Proof.
  destruct db as [rs s [|b fs]]; intros Hc.
  - exists (mkDB rs s []). repeat split. unfold calm. simpl.
    now rewrite firstn_nil.
  - apply calm_S in Hc as [-> Hc]. exists (mkDB rs s fs). now repeat split.
Qed.

Lemma Delete_calm (u : User) (db : DB) :
  calm 1 db -> ID u <> 0 ->
  exists db', Delete u db = (None, db') /\
              rows db' = filter (fun r => negb (ID r =? ID u)) (rows db) /\
              seq db' = seq db.
Proof.
  intros Hc Hz. apply Z.eqb_neq in Hz. unfold Delete. rewrite Hz.
  destruct db as [rs s [|b fs]]; unfold bind, ret, call_fails; simpl.
  - eexists; repeat split.
  - apply calm_S in Hc as [-> _]. eexists; repeat split.
Qed.

Lemma wf_In_nonzero (db : DB) (u : User) :
  wf db -> In u (rows db) -> ID u <> 0.
Proof.
  intros (_ & H & _) Hin. rewrite Forall_forall in H. auto.
Qed.

End Facts.

(** ** The claims *)

Section Claims.

Variable E : Engine.

(** C1, as amended.  A PUT decodes its body into the record it has just
    fetched, so a field the body does not name keeps the fetched value: when
    the fetch returns [U], the body is a JSON object and the answer is 200,
    the user in the answer has [U]'s name if the object names no name and
    [U]'s email if it names no email, and the table holds a row for that
    user (its texts as the columns store them).  The update merges the
    body into the stored record; it does not blank what is left out. *)
Theorem updateUser_merges_omitted_fields
    (c : Context) (db db' : DB) (U : User)
    (ms : list (string * json)) (p : payload) :
  fst (First E (Param_id c) db) = inr U ->
  Body c = Some (JObject ms) ->
  updateUser E c db = (JSON 200 p, db') ->
  exists u r,
    p = OneUser u /\
    (omits F_name ms -> Name u = Name U) /\
    (omits F_email ms -> Email u = Email U) /\
    In r (rows db') /\ stored_as E u r.
Proof.
  intros HF HB H. unfold updateUser, bind, ret in H.
  destruct (First E (Param_id c) db) as [[e|U'] d] eqn:HFd;
    simpl in HF; [discriminate|]. inversion HF; subst U'; clear HF.
  rewrite HB in H. simpl in H.
  destruct (set_members U ms) as [u1|] eqn:Hb; [|discriminate].
  destruct (Save E u1 d) as [[u' [e|]] d'] eqn:HS; [discriminate|].
  inversion H; subst; clear H.
  apply Save_ok_stored in HS as (Hn & He & r & Hin & Hs).
  destruct (set_members_keeps _ _ _ Hb) as (_ & Kn & Ke).
  exists u', r. repeat split; auto.
  - intros O. rewrite Hn. auto.
  - intros O. rewrite He. auto.
  - apply Hs.
  - apply Hs.
  - apply Hs.
Qed.

(** C2, as amended.  The id a POST body decodes to is ignored only when it
    is 0 (an absent or null id decodes to 0 as well): then the record and
    the 201 answer carry a system-assigned id, the next value of the
    table's counter.  Any other id in the body is the id of the created
    record and of the 201 answer. *)
Theorem createUser_body_id
    (c : Context) (db db' : DB) (u0 : User) (p : payload) :
  ShouldBindJSON (Body c) zeroUser = Some u0 ->
  createUser E c db = (JSON 201 p, db') ->
  exists u r,
    p = OneUser u /\ In r (rows db') /\ ID r = ID u /\
    (ID u0 = 0 -> ID u = seq db + 1) /\
    (ID u0 <> 0 -> ID u = ID u0).
Proof.
  intros HB H.
  apply createUser_created in H
    as (u0' & u & r & HB' & Hp & _ & _ & Hnz & Hz & Hr & Hs & _).
  rewrite HB in HB'. inversion HB'; subst u0'.
  exists u, r. repeat split; try tauto.
  - rewrite Hr. apply in_or_app. right. now left.
  - apply Hs.
Qed.

(** C3.  When a POST is answered 201 with the user [u], and the name and
    the email of [u] are texts their columns store as offered (a
    well-formed body), a GET that follows at once with a path id that
    reads as [ID u] is answered 200 with [u] itself: the same id, name and
    email. *)
Theorem createUser_then_getUser
    (c g : Context) (db db1 : DB) (u : User) :
  createUser E c db = (JSON 201 (OneUser u), db1) ->
  kept E u ->
  Atoi (Param_id g) = Some (ID u) ->
  calm 1 db1 ->
  fst (getUser E g db1) = JSON 200 (OneUser u).
Proof.
  intros H K Ha Hc.
  apply createUser_created in H
    as (u0 & u' & r & _ & Hp & _ & _ & _ & _ & Hr & Hs & Hid & _).
  inversion Hp; subst u'; clear Hp.
  assert (r = u) by now apply (stored_kept E). subst r.
  unfold getUser, bind, ret.
  pose proof (First_calm E (Param_id g) db1 Hc) as HF.
  destruct (First E (Param_id g) db1) as [x d]. simpl in HF. subst x.
  rewrite Hr, (select_first_last E _ _ _ Ha Hid). reflexivity.
Qed.

(** C4.  After a run of POSTs on an empty table that were all answered
    201, with the users [us] in that order, a GET /users that no outside
    failure hits is answered 200 with a list that holds the created
    records, each once, in the order the engine lists them: as many items as
    [us], every item a created record with the id of its answer and its
    texts as the columns store them, and the very users of [us], in some
    order, when those texts are stored as offered.  The request changes
    neither the rows nor the counter, and asking again gives the same list
    in the same order. *)
Theorem getUsers_after_creates
    (cs : list Context) (fs : list bool) (resps : list Response)
    (db : DB) (us : list User) (g : Context) :
  creates E cs (emptyDB fs) = (resps, db) ->
  Forall2 (fun resp u => resp = JSON 201 (OneUser u)) resps us ->
  calm 1 db ->
  exists listed stored,
    fst (getUsers E g db) = JSON 200 (Users listed) /\
    Forall2 (stored_as E) us stored /\
    Permutation stored listed /\
    List.length listed = List.length us /\
    (Forall (kept E) us -> Permutation us listed) /\
    rows (snd (getUsers E g db)) = rows db /\
    seq (snd (getUsers E g db)) = seq db /\
    (calm 1 (snd (getUsers E g db)) ->
     fst (getUsers E g (snd (getUsers E g db))) = fst (getUsers E g db)).
Proof.
  intros H F Hc.
  destruct (creates_rows E _ _ _ _ _ H F) as (rs & Hr & Fs).
  simpl in Hr. subst rs.
  destruct (getUsers_frame E g db) as [Fr Fq].
  pose proof (listing_all (flavour E) (rows db)) as P.
  exists (listing (flavour E) (rows db)), (rows db).
  repeat split; auto.
  - now apply getUsers_calm.
  - rewrite <- (Permutation_length P). symmetry.
    eapply Forall2_length; eauto.
  - intros K. now rewrite <- (stored_all_kept E us (rows db) Fs K) at 1.
  - intros Hc2. rewrite !getUsers_calm by assumption. now rewrite Fr.
Qed.

(** What [getUser] does answer: 200 or 404 and nothing else; 404 whenever
    the fetch finds no record, so in particular when the id reads as an
    integer within [int] that is the key of no stored user. *)
Theorem getUser_unknown_id (c : Context) (db : DB) :
  (code (fst (getUser E c db)) = 200 \/
   code (fst (getUser E c db)) = StatusNotFound) /\
  (forall n, Atoi (Param_id c) = Some n -> has_id n (rows db) = false ->
             fst (getUser E c db) = not_found) /\
  (forall e, select_first E (rows db) (Param_id c) = inl e ->
             fst (getUser E c db) = not_found).
Proof.
  repeat split.
  - unfold getUser, bind, ret.
    destruct (First E (Param_id c) db) as [[e|u] d]; simpl; auto.
  - intros n Ha Hn. now apply getUser_absent with n.
  - intros e He. destruct db as [rs s [|[] fs]];
      unfold getUser, First, bind, ret, call_fails; simpl in *;
      try reflexivity; now rewrite He.
Qed.

(** C6.  For a stored user [u] of a table that has the invariant, a
    DELETE whose path id reads as [ID u] and whose two calls no outside
    failure hits is answered 200 with the message ["User deleted"] (not
    the record); the rows are those of before without the one keyed
    [ID u]; and from then on, whatever the failure schedule, a GET with a
    path id that reads as [ID u] is answered 404, a direct [First] lookup
    reporting [ErrRecordNotFound]. *)
Theorem deleteUser_then_getUser (c : Context) (db : DB) (u : User) :
  wf db ->
  In u (rows db) ->
  Atoi (Param_id c) = Some (ID u) ->
  calm 2 db ->
  fst (deleteUser E c db) = JSON 200 (H "User deleted") /\
  rows (snd (deleteUser E c db))
  = filter (fun r => negb (ID r =? ID u)) (rows db) /\
  ~ In u (rows (snd (deleteUser E c db))) /\
  select_first E (rows (snd (deleteUser E c db))) (Param_id c)
  = inl ErrRecordNotFound /\
  (forall g db2,
     rows db2 = rows (snd (deleteUser E c db)) ->
     Atoi (Param_id g) = Some (ID u) ->
     fst (getUser E g db2) = not_found).
Proof.
  intros W Hin Ha Hc.
  assert (Hz : ID u <> 0) by now apply wf_In_nonzero with db.
  assert (Hsel : select_first E (rows db) (Param_id c) = inr u)
    by (apply select_first_present; auto; apply W).
  destruct (First_calm_eq E (Param_id c) 1 db Hc)
    as (d1 & HF & Hr1 & Hs1 & Hc1).
  destruct (Delete_calm u d1 Hc1 Hz) as (d2 & HD & Hr2 & Hs2).
  assert (Hrun : deleteUser E c db = (JSON 200 (H "User deleted"), d2)).
  { unfold deleteUser, bind, ret. rewrite HF, Hsel, HD. reflexivity. }
  rewrite Hrun. simpl. rewrite Hr2, Hr1.
  assert (Hgone : has_id (ID u)
                    (filter (fun r => negb (ID r =? ID u)) (rows db))
                  = false) by apply has_id_filter_out.
  repeat split; auto.
  - intros Hu. apply has_id_In in Hu. congruence.
  - now apply select_first_absent with (ID u).
  - intros g db2 Hr Hg. apply getUser_absent with (ID u); auto.
    now rewrite Hr.
Qed.

(** C7.  Two POSTs whose bodies decode and carry the same email: when the
    first is answered 201, the second is answered 500 and leaves the rows
    as the first left them, and exactly one row holds that email (as its
    column stores it). *)
Theorem createUser_duplicate_email
    (c1 c2 : Context) (db db1 : DB) (u1 u2 : User) (p : payload) :
  ShouldBindJSON (Body c1) zeroUser = Some u1 ->
  ShouldBindJSON (Body c2) zeroUser = Some u2 ->
  Email u1 = Email u2 ->
  createUser E c1 db = (JSON 201 p, db1) ->
  code (fst (createUser E c2 db1)) = StatusInternalServerError /\
  rows (snd (createUser E c2 db1)) = rows db1 /\
  exists e,
    varchar100 E (Email u1) = Some e /\
    List.length (filter (fun r => String.eqb (Email r) e) (rows db1))
    = 1%nat.
Proof.
  intros B1 B2 He H.
  apply createUser_created in H
    as (u0 & u & r & B1' & _ & _ & Hem & _ & _ & Hr & Hs & _ & Hne).
  rewrite B1 in B1'. inversion B1'; subst u0; clear B1'.
  destruct Hs as (_ & _ & Hv). rewrite Hem in Hv.
  assert (Hhas : has_email (Email r) (rows db1) = true).
  { rewrite Hr. unfold has_email. rewrite existsb_app. simpl.
    now rewrite String.eqb_refl, orb_true_r. }
  assert (Hv2 : varchar100 E (Email u2) = Some (Email r)) by congruence.
  destruct (Create_dup_email E u2 _ db1 Hv2 Hhas)
    as (u' & err & d' & HC & Hrows).
  unfold createUser, bind, ret. rewrite B2, HC. simpl.
  repeat split; auto.
  exists (Email r). split; [assumption|].
  rewrite Hr, filter_app, (filter_email_absent _ _ Hne). simpl.
  now rewrite String.eqb_refl.
Qed.


(** C9, as amended.  When the fetch of a PUT returns the stored user [U]
    of a table that has the invariant, the body decodes into [U] without
    changing the id (it names no id, or null, or [U]'s own), and the
    answer is 200, then the answer carries the decoded user with [U]'s
    id, the keys of the table are the same as before in the same order,
    and the rows are those of before with name and email replaced in the
    one keyed [ID U] and in no other.  The sequence is not touched. *)
Theorem updateUser_keeps_id
    (c : Context) (db db' : DB) (U u1 : User) (p : payload) :
  wf db ->
  fst (First E (Param_id c) db) = inr U ->
  ShouldBindJSON (Body c) U = Some u1 ->
  ID u1 = ID U ->
  updateUser E c db = (JSON 200 p, db') ->
  p = OneUser u1 /\
  map ID (rows db') = map ID (rows db) /\
  seq db' = seq db /\
  exists n e,
    varchar100 E (Name u1) = Some n /\
    varchar100 E (Email u1) = Some e /\
    rows db'
    = map (fun r => if ID r =? ID U then mkUser (ID r) n e else r)
          (rows db).
Proof.
  intros W HF HB Hid H. unfold updateUser, bind, ret in H.
  destruct (First E (Param_id c) db) as [[e|U'] d] eqn:HFd;
    simpl in HF; [discriminate|]. inversion HF; subst U'; clear HF.
  apply First_found in HFd as (Hsel & Hr & Hs).
  apply select_first_In in Hsel.
  assert (Hz : ID u1 <> 0)
    by (rewrite Hid; now apply wf_In_nonzero with db).
  rewrite HB in H.
  destruct (Save E u1 d) as [[u' [e|]] d'] eqn:HS; [discriminate|].
  inversion H; subst; clear H.
  apply Save_ok_keyed in HS as (-> & Hq & rs' & <- & Hc);
    [|assumption].
  rewrite Hr, Hid, (has_id_In U (rows db) Hsel) in Hc, Hq.
  pose proof (update_ids E _ _ _ Hc) as Hids.
  apply update_rows in Hc as (n & e & Hn & He & Hrows).
  rewrite Hid in Hrows.
  repeat split; auto; try congruence.
  exists n, e. auto.
Qed.

(** C10.  A handler that answers with an error status (any status other
    than its success status) leaves the rows of the table as they were,
    and the two read handlers leave rows and sequence as they were
    whatever they answer.  (On PostgreSQL a rejected INSERT does use up a
    value of the sequence; the rows are not affected.) *)
Theorem error_response_keeps_rows (c : Context) (db : DB) :
  (code (fst (getUsers E c db)) <> 200 ->
     rows (snd (getUsers E c db)) = rows db) /\
  (code (fst (getUser E c db)) <> 200 ->
     rows (snd (getUser E c db)) = rows db) /\
  (code (fst (createUser E c db)) <> 201 ->
     rows (snd (createUser E c db)) = rows db) /\
  (code (fst (updateUser E c db)) <> 200 ->
     rows (snd (updateUser E c db)) = rows db) /\
  (code (fst (deleteUser E c db)) <> 200 ->
     rows (snd (deleteUser E c db)) = rows db) /\
  (rows (snd (getUsers E c db)) = rows db /\
   seq (snd (getUsers E c db)) = seq db) /\
  (rows (snd (getUser E c db)) = rows db /\
   seq (snd (getUser E c db)) = seq db).
Proof.
  repeat split.
  - intros _. apply getUsers_frame.
  - intros _. apply getUser_frame.
  - apply createUser_error.
  - apply updateUser_error.
  - apply deleteUser_error.
  - apply getUsers_frame.
  - apply getUsers_frame.
  - apply getUser_frame.
  - apply getUser_frame.
Qed.

End Claims.

(** ** The claims on concrete requests *)

Lemma small_engine_kept (i : Z) (n e : string) :
  Nat.leb (String.length n) 100 = true ->
  Nat.leb (String.length e) 100 = true ->
  kept small_engine (mkUser i n e).
Proof.
  intros Hn He. unfold kept, small_engine, varchar_bytes. simpl.
  now rewrite Hn, He.
Qed.

(** C1, as the claim states it, fails: a PUT on Eve's record whose body
    names the name only is answered 200 with Eve's email still in place, in
    the answer and in the table, where the claim has it blank. *)
Lemma updateUser_partial_body_not_blanked :
  In eve (rows eve_db) /\
  omits F_email [("name", JString "Eve Updated")] /\
  updateUser small_engine put_name_only eve_db
  = (JSON 200 (OneUser (mkUser 1 "Eve Updated" "eve@example.com")),
     mkDB [mkUser 1 "Eve Updated" "eve@example.com"] 1 []) /\
  Email (mkUser 1 "Eve Updated" "eve@example.com") <> "".
Proof.
  split; [now left|]. split; [|split].
  - repeat constructor. discriminate.
  - reflexivity.
  - discriminate.
Qed.

Lemma updateUser_merges_omitted_fields_witness :
  exists u r,
    OneUser (mkUser 1 "Eve Updated" "eve@example.com") = OneUser u /\
    (omits F_name [("name", JString "Eve Updated")] -> Name u = Name eve) /\
    (omits F_email [("name", JString "Eve Updated")] ->
     Email u = Email eve) /\
    In r [mkUser 1 "Eve Updated" "eve@example.com"] /\
    stored_as small_engine u r.
Proof.
  apply (updateUser_merges_omitted_fields small_engine put_name_only eve_db
           (mkDB [mkUser 1 "Eve Updated" "eve@example.com"] 1 []) eve
           [("name", JString "Eve Updated")]);
    reflexivity.
Defined.

(** C2, as the claim states it, fails: a POST whose body gives the id 42 is
    answered 201 with the id 42 and the row is stored under 42, where the
    table's counter would have assigned 1. *)
Lemma createUser_body_id_used :
  fst (createUser small_engine post_dave_42 (emptyDB []))
  = JSON 201 (OneUser (mkUser 42 "Dave" "dave@example.com")) /\
  rows (snd (createUser small_engine post_dave_42 (emptyDB [])))
  = [mkUser 42 "Dave" "dave@example.com"] /\
  ID (mkUser 42 "Dave" "dave@example.com") <> seq (emptyDB []) + 1.
Proof. split; [reflexivity | split; [reflexivity | discriminate]]. Qed.

Lemma createUser_body_id_witness :
  exists u r,
    OneUser (mkUser 42 "Dave" "dave@example.com") = OneUser u /\
    In r [mkUser 42 "Dave" "dave@example.com"] /\ ID r = ID u /\
    (42 = 0 -> ID u = 0 + 1) /\
    (42 <> 0 -> ID u = 42).
Proof.
  apply (createUser_body_id small_engine post_dave_42 (emptyDB [])
           (mkDB [mkUser 42 "Dave" "dave@example.com"] 0 [])
           (mkUser 42 "Dave" "dave@example.com"));
    reflexivity.
Defined.

Lemma createUser_then_getUser_witness :
  fst (getUser small_engine (bare "1")
         (mkDB [mkUser 1 "Dave" "dave@example.com"] 1 []))
  = JSON 200 (OneUser (mkUser 1 "Dave" "dave@example.com")).
Proof.
  apply (createUser_then_getUser small_engine post_dave (bare (Itoa 1))
           (emptyDB [])).
  - reflexivity.
  - apply small_engine_kept; reflexivity.
  - reflexivity.
  - reflexivity.
Defined.

Lemma getUsers_after_creates_witness :
  exists listed stored,
    fst (getUsers small_engine (bare "") alice_bob_db)
    = JSON 200 (Users listed) /\
    Forall2 (stored_as small_engine) [alice; bob] stored /\
    Permutation stored listed /\
    List.length listed = List.length [alice; bob] /\
    (Forall (kept small_engine) [alice; bob] ->
     Permutation [alice; bob] listed) /\
    rows (snd (getUsers small_engine (bare "") alice_bob_db))
    = rows alice_bob_db /\
    seq (snd (getUsers small_engine (bare "") alice_bob_db))
    = seq alice_bob_db /\
    (calm 1 (snd (getUsers small_engine (bare "") alice_bob_db)) ->
     fst (getUsers small_engine (bare "")
            (snd (getUsers small_engine (bare "") alice_bob_db)))
     = fst (getUsers small_engine (bare "") alice_bob_db)).
Proof.
  apply (getUsers_after_creates small_engine [post_alice; post_bob] []
           [JSON 201 (OneUser alice); JSON 201 (OneUser bob)]
           alice_bob_db [alice; bob] (bare "")).
  - reflexivity.
  - repeat constructor.
  - reflexivity.
Defined.

(** C5 is not what the code does, against the handler's own description
    (retrieve a user by their ID, [id] an int, 400 if the ID is invalid):
    the path id [1=1] is no integer and is the key of no user, yet the GET
    is answered 200 with the first row of the table, not 404, because
    [getUser] hands the text of the path to [First], which passes it to
    the engine as a condition that every row satisfies. *)
Lemma getUser_condition_text_found :
  Atoi "1=1" = None /\
  fst (getUser small_engine (bare "1=1") eve_db) = JSON 200 (OneUser eve) /\
  fst (getUser small_engine (bare "1=1") eve_db) <> not_found.
Proof. split; [reflexivity | split; [reflexivity | discriminate]]. Qed.

Lemma getUser_unknown_id_witness :
  fst (getUser small_engine (bare "7") eve_db) = not_found.
Proof.
  apply (proj1 (proj2 (getUser_unknown_id small_engine (bare "7") eve_db))
           7); reflexivity.
Defined.

Lemma deleteUser_then_getUser_witness :
  fst (deleteUser small_engine (bare "1") eve_db)
  = JSON 200 (H "User deleted").
Proof.
  apply (deleteUser_then_getUser small_engine (bare "1") eve_db eve).
  - unfold wf, eve_db, eve; simpl.
    repeat split; repeat constructor; simpl; try lia; tauto.
  - now left.
  - reflexivity.
  - reflexivity.
Defined.

Lemma createUser_duplicate_email_witness :
  code (fst (createUser small_engine post_dave
               (mkDB [mkUser 1 "Dave" "dave@example.com"] 1 [])))
  = StatusInternalServerError.
Proof.
  apply (createUser_duplicate_email small_engine post_dave post_dave
           (emptyDB []) (mkDB [mkUser 1 "Dave" "dave@example.com"] 1 [])
           (mkUser 0 "Dave" "dave@example.com")
           (mkUser 0 "Dave" "dave@example.com")
           (OneUser (mkUser 1 "Dave" "dave@example.com")));
    reflexivity.
Defined.


(** C9 fails on the request of the repository's own update test: the body
    spells out the zero id, [Save] takes the zero key for a new record, and
    the PUT on user 1 is answered 200 with a user of id 2 while the row of
    user 1 stays as it was. *)
Theorem updateUser_body_id_moves :
  updateUser small_engine put_eve_updated eve_db
  = (JSON 200 (OneUser (mkUser 2 "Eve Updated" "eve.updated@example.com")),
     mkDB [eve; mkUser 2 "Eve Updated" "eve.updated@example.com"] 2 []).
Proof. reflexivity. Qed.

Lemma error_response_keeps_rows_witness :
  rows (snd (createUser small_engine (bare "") eve_db)) = rows eve_db.
Proof.
  apply (proj1 (proj2 (proj2
           (error_response_keeps_rows small_engine (bare "") eve_db)))).
  discriminate.
Defined.

(** ** The repository's tests, run on the model with the engine of the
    tests *)

(** TestGetUsers: two seeded users, GET /api/v1/users is answered 200 with
    two users. *)
Example TestGetUsers :
  let db1 := snd (Create sqlite_engine
                    (mkUser 0 "Alice" "alice@example.com") (emptyDB [])) in
  let db2 := snd (Create sqlite_engine
                    (mkUser 0 "Bob" "bob@example.com") db1) in
  exists users,
    fst (getUsers sqlite_engine (bare "") db2) = JSON 200 (Users users) /\
    List.length users = 2%nat.
Proof. eexists. split; reflexivity. Qed.

(** TestGetUser: GET /api/v1/users/1 after seeding Charlie. *)
Example TestGetUser :
  let db1 := snd (Create sqlite_engine
                    (mkUser 0 "Charlie" "charlie@example.com") (emptyDB []))
  in
  exists fetchedUser,
    fst (getUser sqlite_engine (bare "1") db1)
    = JSON 200 (OneUser fetchedUser) /\
    Name fetchedUser = "Charlie".
Proof. eexists. split; reflexivity. Qed.

(** TestCreateUser. *)
Example TestCreateUser :
  exists createdUser,
    fst (createUser sqlite_engine post_dave (emptyDB []))
    = JSON 201 (OneUser createdUser) /\
    Name createdUser = "Dave".
Proof. eexists. split; reflexivity. Qed.

(** TestUpdateUser.  The test reads the name from the answer, which is what
    it expects. *)
Example TestUpdateUser :
  let db1 := snd (Create sqlite_engine
                    (mkUser 0 "Eve" "eve@example.com") (emptyDB [])) in
  exists fetchedUser,
    fst (updateUser sqlite_engine put_eve_updated db1)
    = JSON 200 (OneUser fetchedUser) /\
    Name fetchedUser = "Eve Updated".
Proof. eexists. split; reflexivity. Qed.

(** TestDeleteUser: after the DELETE, [First] reports
    [ErrRecordNotFound]. *)
Example TestDeleteUser :
  let db1 := snd (Create sqlite_engine
                    (mkUser 0 "Frank" "frank@example.com") (emptyDB [])) in
  let (resp, db2) := deleteUser sqlite_engine (bare "1") db1 in
  code resp = 200 /\
  fst (First sqlite_engine "1" db2) = inl ErrRecordNotFound.
Proof. split; reflexivity. Qed.

(** ** Routing facts *)

Lemma segments_cons (s : string) : exists seg rest, segments s = seg :: rest.
Proof.
  destruct s as [|c r]; simpl; [eauto|].
  destruct (Ascii.eqb c "/"); [eauto|].
  destruct (segments r); eauto.
Qed.

Lemma segments_no_slash (s : string) :
  has_slash s = false -> segments s = [s].
Proof.
  induction s as [|c r IH]; simpl; [reflexivity|].
  intros H. apply orb_false_iff in H as [Hc Hr].
  rewrite Hc, (IH Hr). reflexivity.
Qed.

Lemma segments_free (s : string) :
  Forall (fun seg => has_slash seg = false) (segments s).
Proof.
  induction s as [|c r IH]; simpl.
  - repeat constructor.
  - destruct (Ascii.eqb c "/") eqn:Hc.
    + constructor; [reflexivity | assumption].
    + destruct (segments r) as [|seg rest].
      * repeat constructor. simpl. now rewrite Hc.
      * inversion IH as [|? ? Hseg Hrest]; subst.
        constructor; [|assumption]. simpl. now rewrite Hc.
Qed.

Lemma join_segments (s : string) : join (segments s) = s.
Proof.
  induction s as [|c r IH]; [reflexivity|].
  simpl segments. destruct (Ascii.eqb_spec c "/") as [->|Hc].
  - destruct (segments_cons r) as (seg & rest & Hs).
    rewrite Hs in *. change (join ("" :: seg :: rest))
      with ("" ++ "/" ++ join (seg :: rest)).
    rewrite IH. reflexivity.
  - destruct (segments_cons r) as (seg & rest & Hs).
    rewrite Hs in *. destruct rest as [|seg' rest].
    + simpl in *. now rewrite IH.
    + change (join (String c seg :: seg' :: rest))
        with (String c (seg ++ "/" ++ join (seg' :: rest))).
      f_equal. exact IH.
Qed.

Lemma segments_user_path (id : string) :
  has_slash id = false ->
  segments (user_path id) = [""; "api"; "v1"; "users"; id].
Proof.
  intros H. unfold user_path. simpl. now rewrite (segments_no_slash id H).
Qed.

Ltac compare_segments :=
  repeat (match goal with
          | |- context [String.eqb ?x ?y] => destruct (String.eqb_spec x y)
          end; cbn [match_segments]; try discriminate).

Lemma match_collection (segs : list string) (params : list (string * string)) :
  match_segments (segments "/api/v1/users") segs = Some params ->
  segs = segments "/api/v1/users" /\ params = [].
Proof.
  change (segments "/api/v1/users") with [""; "api"; "v1"; "users"].
  destruct segs as [|a [|b [|c [|d [|e r]]]]]; cbn [match_segments];
    try discriminate; compare_segments.
  intros H. inversion H. subst. auto.
Qed.

Lemma match_item (segs : list string) (params : list (string * string)) :
  match_segments (segments "/api/v1/users/:id") segs = Some params ->
  exists id, segs = [""; "api"; "v1"; "users"; id] /\ id <> "" /\
             params = [("id", id)].
Proof.
  change (segments "/api/v1/users/:id")
    with [""; "api"; "v1"; "users"; ":id"].
  destruct segs as [|a [|b [|c [|d [|e [|f r]]]]]]; cbn [match_segments];
    try discriminate; compare_segments.
  intros H. inversion H. subst. eauto.
Qed.

Lemma path_of_item (path id : string) :
  segments path = [""; "api"; "v1"; "users"; id] ->
  path = user_path id /\ has_slash id = false.
Proof.
  intros H. split.
  - rewrite <- (join_segments path), H. reflexivity.
  - pose proof (segments_free path) as F. rewrite H in F.
    repeat (inversion F as [|? ? ? F']; subst; clear F; rename F' into F).
    assumption.
Qed.

Lemma route_collection (path : string) (params : list (string * string)) :
  match_segments (segments "/api/v1/users") (segments path) = Some params ->
  path = "/api/v1/users" /\ params = [].
Proof.
  intros H. apply match_collection in H as [H ->].
  split; [|reflexivity]. rewrite <- (join_segments path), H. reflexivity.
Qed.

Lemma route_item (path : string) (params : list (string * string)) :
  match_segments (segments "/api/v1/users/:id") (segments path)
  = Some params ->
  exists id, id <> "" /\ has_slash id = false /\
             path = user_path id /\ params = [("id", id)].
Proof.
  intros H. apply match_item in H as (id & Hs & Hne & ->).
  apply path_of_item in Hs as [Hp Hf]. exists id. auto.
Qed.

Lemma bind_Some {A : Type} (m : M A) (db : DB) :
  (resp <- m ;; ret (Some resp)) db = (Some (fst (m db)), snd (m db)).
Proof. unfold bind, ret. now destruct (m db). Qed.

Section Served.

Variable E : Engine.

(** A request whose path is that of one user reaches the handler of its
    method with the last segment as [id]. *)
Lemma find_route_item (m : string) (id : string) (b : option json) :
  id <> "" -> has_slash id = false ->
  match_segments (segments "/api/v1/users/:id") (segments (user_path id))
  = Some [("id", id)] /\
  match_segments (segments "/api/v1/users") (segments (user_path id)) = None.
Proof.
  intros Hne Hs. rewrite (segments_user_path id Hs).
  change (segments "/api/v1/users/:id")
    with [""; "api"; "v1"; "users"; ":id"].
  change (segments "/api/v1/users") with [""; "api"; "v1"; "users"].
  cbn [match_segments].
  change (String.eqb "" "") with true.
  change (String.eqb "api" "api") with true.
  change (String.eqb "v1" "v1") with true.
  change (String.eqb "users" "users") with true.
  cbv iota. destruct (String.eqb_spec id ""); [contradiction|].
  split; reflexivity.
Qed.

(** Which handler a request reaches, if any. *)
Lemma ServeHTTP_cases (req : Request) (db : DB) :
  ServeHTTP E req db = (None, db) \/
  (Method req = "GET" /\ Path req = "/api/v1/users" /\
   ServeHTTP E req db
   = (Some (fst (getUsers E (mkContext "" (Sent req)) db)),
      snd (getUsers E (mkContext "" (Sent req)) db))) \/
  (Method req = "POST" /\ Path req = "/api/v1/users" /\
   ServeHTTP E req db
   = (Some (fst (createUser E (mkContext "" (Sent req)) db)),
      snd (createUser E (mkContext "" (Sent req)) db))) \/
  (exists id,
     id <> "" /\ has_slash id = false /\ Path req = user_path id /\
     ((Method req = "GET" /\
       ServeHTTP E req db
       = (Some (fst (getUser E (mkContext id (Sent req)) db)),
          snd (getUser E (mkContext id (Sent req)) db))) \/
      (Method req = "PUT" /\
       ServeHTTP E req db
       = (Some (fst (updateUser E (mkContext id (Sent req)) db)),
          snd (updateUser E (mkContext id (Sent req)) db))) \/
      (Method req = "DELETE" /\
       ServeHTTP E req db
       = (Some (fst (deleteUser E (mkContext id (Sent req)) db)),
          snd (deleteUser E (mkContext id (Sent req)) db))))).
Proof.
  unfold ServeHTTP, initializeRoutes. cbn [find_route].
  unfold route_matches. cbn [fst snd].
  destruct (String.eqb_spec (Method req) "GET") as [Hg|Hg].
  - destruct (match_segments (segments "/api/v1/users")
                (segments (Path req))) as [params|] eqn:H1.
    { apply route_collection in H1 as [Hp ->]. right. left.
      rewrite bind_Some. auto. }
    destruct (match_segments (segments "/api/v1/users/:id")
                (segments (Path req))) as [params|] eqn:H2.
    { apply route_item in H2 as (id & Hne & Hf & Hp & ->).
      right. right. right. exists id. repeat split; auto.
      left. rewrite bind_Some. cbn [Param]. 
      change (String.eqb "id" "id") with true. cbv iota. auto. }
    rewrite Hg.
    change (String.eqb "GET" "POST") with false.
    change (String.eqb "GET" "PUT") with false.
    change (String.eqb "GET" "DELETE") with false.
    cbv iota. left. reflexivity.
  - destruct (String.eqb_spec (Method req) "POST") as [Hp|Hp].
    + destruct (match_segments (segments "/api/v1/users")
                  (segments (Path req))) as [params|] eqn:H1.
      { apply route_collection in H1 as [Hpath ->]. right. right. left.
        rewrite bind_Some. auto. }
      rewrite Hp.
      change (String.eqb "POST" "PUT") with false.
      change (String.eqb "POST" "DELETE") with false.
      cbv iota. left. reflexivity.
    + destruct (String.eqb_spec (Method req) "PUT") as [Hu|Hu].
      * destruct (match_segments (segments "/api/v1/users/:id")
                    (segments (Path req))) as [params|] eqn:H2.
        { apply route_item in H2 as (id & Hne & Hf & Hpath & ->).
          right. right. right. exists id. repeat split; auto.
          right. left. rewrite bind_Some. cbn [Param].
          change (String.eqb "id" "id") with true. cbv iota. auto. }
        rewrite Hu. change (String.eqb "PUT" "DELETE") with false.
        cbv iota. left. reflexivity.
      * destruct (String.eqb_spec (Method req) "DELETE") as [Hd|Hd].
        -- destruct (match_segments (segments "/api/v1/users/:id")
                       (segments (Path req))) as [params|] eqn:H2.
           { apply route_item in H2 as (id & Hne & Hf & Hpath & ->).
             right. right. right. exists id. repeat split; auto.
             right. right. rewrite bind_Some. cbn [Param].
             change (String.eqb "id" "id") with true. cbv iota. auto. }
           left. reflexivity.
        -- left. reflexivity.
Qed.

End Served.

(** ** More about the handlers *)

Lemma set_member_ok (u : User) (kv : string * json) :
  set_member u kv <> None <-> member_ok kv = true.
Proof.
  unfold set_member, member_ok, accepts.
  destruct (field_of_key (fst kv)) as [[]|]; destruct (snd kv);
    try destruct (in_int z); split; intros H; try reflexivity;
    try discriminate; try (exfalso; apply H; reflexivity).
Qed.

Lemma set_members_ok (ms : list (string * json)) :
  forall u, set_members u ms <> None <-> forallb member_ok ms = true.
Proof.
  induction ms as [|kv ms IH]; simpl; intros u.
  - split; [reflexivity | discriminate].
  - rewrite andb_true_iff, <- (set_member_ok u kv).
    destruct (set_member u kv) as [u1|].
    + rewrite (IH u1). split; [intros H; split; [discriminate | exact H]|].
      intros [_ H]. exact H.
    + split; [intros H; now contradiction H | intros [H _]; exact H].
Qed.

Section Handlers.

Variable E : Engine.

(** X1.  The answers a handler can give.  GET /users answers 200 with a
    list or 500; GET /users/{id} answers 200 with a user or 404; POST
    answers 201 with a user, 400 or 500; PUT answers 200 with a user, 404,
    400 or 500; DELETE answers 200 with the message ["User deleted"], 404
    or 500.  Every answer that is not a success carries an [ErrorResponse]
    with the message the handler fixes for that status. *)
Theorem handler_answers (c : Context) (db : DB) :
  ((exists users, fst (getUsers E c db) = JSON 200 (Users users)) \/
   fst (getUsers E c db)
   = JSON 500 (Failure (mkErrorResponse "Error fetching users"))) /\
  ((exists user, fst (getUser E c db) = JSON 200 (OneUser user)) \/
   fst (getUser E c db) = not_found) /\
  ((exists user, fst (createUser E c db) = JSON 201 (OneUser user)) \/
   fst (createUser E c db)
   = JSON 400 (Failure (mkErrorResponse "Invalid input")) \/
   fst (createUser E c db)
   = JSON 500 (Failure (mkErrorResponse "Failed to create user"))) /\
  ((exists user, fst (updateUser E c db) = JSON 200 (OneUser user)) \/
   fst (updateUser E c db) = not_found \/
   fst (updateUser E c db)
   = JSON 400 (Failure (mkErrorResponse "Invalid input")) \/
   fst (updateUser E c db)
   = JSON 500 (Failure (mkErrorResponse "Failed to update user"))) /\
  (fst (deleteUser E c db) = JSON 200 (H "User deleted") \/
   fst (deleteUser E c db) = not_found \/
   fst (deleteUser E c db)
   = JSON 500 (Failure (mkErrorResponse "Failed to delete user"))).
Proof.
  repeat split.
  - unfold getUsers, bind, ret.
    destruct (Find E db) as [[e|users] d]; simpl; eauto.
  - unfold getUser, bind, ret.
    destruct (First E (Param_id c) db) as [[e|user] d]; simpl; eauto.
  - unfold createUser, bind, ret.
    destruct (ShouldBindJSON (Body c) zeroUser) as [u|]; simpl; auto.
    destruct (Create E u db) as [[u' [e|]] d]; simpl; eauto.
  - unfold updateUser, bind, ret.
    destruct (First E (Param_id c) db) as [[e|U] d]; simpl; auto.
    destruct (ShouldBindJSON (Body c) U) as [u|]; simpl; auto.
    destruct (Save E u d) as [[u' [e|]] d']; simpl; eauto 6.
  - unfold deleteUser, bind, ret.
    destruct (First E (Param_id c) db) as [[e|U] d]; simpl; auto.
    destruct (Delete U d) as [[e|] d']; simpl; auto.
Qed.

(** X2.  POST answers 400 exactly when the body does not decode into a
    user, and then it has made no storage call: the state, failure schedule
    included, is the one it found. *)
Theorem createUser_bad_request (c : Context) (db : DB) :
  (code (fst (createUser E c db)) = StatusBadRequest <->
   ShouldBindJSON (Body c) zeroUser = None) /\
  (ShouldBindJSON (Body c) zeroUser = None ->
   snd (createUser E c db) = db).
Proof.
  unfold createUser, bind, ret.
  destruct (ShouldBindJSON (Body c) zeroUser) as [u|]; simpl.
  - split; [|discriminate].
    destruct (Create E u db) as [[u' [e|]] d]; simpl;
      split; discriminate.
  - split; [split|]; reflexivity.
Qed.

(** X3.  A body that is a JSON object is refused with 400 by POST exactly
    when one of its members names a field of [User] with a value the field
    does not accept: an id that is no integer or does not fit an [int], a
    name or an email that is no string.  [null] and unknown keys are let
    through. *)
Theorem createUser_object_refused
    (id : string) (ms : list (string * json)) (db : DB) :
  code (fst (createUser E (mkContext id (Some (JObject ms))) db))
  = StatusBadRequest
  <-> forallb member_ok ms = false.
Proof.
  unfold createUser, bind, ret. simpl.
  pose proof (set_members_ok ms zeroUser) as Hok.
  destruct (set_members zeroUser ms) as [u|]; simpl.
  - destruct (forallb member_ok ms).
    + destruct (Create E u db) as [[u' [e|]] d]; simpl;
        split; discriminate.
    + exfalso. assert (Some u <> None) as Hs by discriminate.
      apply Hok in Hs. discriminate.
  - destruct (forallb member_ok ms) eqn:Hf.
    + exfalso. destruct Hok as [_ Hok]. now apply Hok.
    + split; reflexivity.
Qed.

End Handlers.

(** ** Keys in range, and what a GET finds *)

Lemma set_member_in_int (u u' : User) (kv : string * json) :
  in_int (ID u) = true -> set_member u kv = Some u' ->
  in_int (ID u') = true.
Proof.
  unfold set_member.
  destruct (field_of_key (fst kv)) as [[]|]; destruct (snd kv);
    try destruct (in_int z) eqn:Hz; intros Hu H; inversion H; subst;
    simpl; assumption.
Qed.

Lemma set_members_in_int (ms : list (string * json)) :
  forall u u', in_int (ID u) = true -> set_members u ms = Some u' ->
               in_int (ID u') = true.
Proof.
  induction ms as [|kv ms IH]; simpl; intros u u' Hu H.
  - inversion H; subst; assumption.
  - destruct (set_member u kv) as [u1|] eqn:H1; [|discriminate].
    apply (IH u1); [|assumption]. now apply set_member_in_int with u kv.
Qed.

Lemma ShouldBindJSON_in_int (b : option json) (u u' : User) :
  in_int (ID u) = true -> ShouldBindJSON b u = Some u' ->
  in_int (ID u') = true.
Proof.
  unfold ShouldBindJSON. intros Hu H.
  destruct b as [[]|]; try discriminate.
  - inversion H; subst; assumption.
  - now apply set_members_in_int with members u.
Qed.

Lemma in_int_between (z : Z) : in_int z = true <-> int_min <= z <= int_max.
Proof.
  unfold in_int. rewrite andb_true_iff, !Z.leb_le. tauto.
Qed.

Lemma int_bounds : int_min < 0 /\ 1 < int_max.
Proof. unfold int_min, int_max. split; reflexivity. Qed.

Section Ranged.

Variable E : Engine.

Lemma ranged_insert (u : User) (rs rs' : list User) (s s' : Z)
      (fs fs' : list bool) :
  ranged (mkDB rs s fs) -> insert E u rs = Some rs' ->
  in_int (ID u) = true -> s' <= int_max ->
  ranged (mkDB rs' s' fs').
Proof.
  unfold ranged; simpl. intros [Hs Hr] Hi Hu Hs'.
  apply insert_rows in Hi as (r & -> & (Hid & _ & _) & _ & _).
  split; [assumption|]. apply Forall_app. split; [assumption|].
  constructor; [|constructor]. now rewrite Hid.
Qed.

Lemma ranged_update (u : User) (rs rs' : list User) (s : Z)
      (fs fs' : list bool) :
  ranged (mkDB rs s fs) -> update E u rs = Some rs' ->
  ranged (mkDB rs' s fs').
Proof.
  unfold ranged; simpl. intros [Hs Hr] Hu. split; [assumption|].
  apply update_rows in Hu as (n & e & _ & _ & ->).
  apply Forall_forall. intros x Hx.
  apply in_map_iff in Hx as (r & <- & Hin).
  rewrite Forall_forall in Hr. specialize (Hr r Hin).
  destruct (ID r =? ID u); assumption.
Qed.

Lemma ranged_Create (u : User) (db : DB) :
  wf db -> ranged db -> in_int (ID u) = true ->
  ranged (snd (Create E u db)).
Proof.
  intros W R Hu. destruct db as [rs s fs].
  assert (Hs : 0 <= s) by apply W.
  assert (Hm : s <= int_max) by apply R.
  pose proof int_bounds as [Hlo Hhi].
  pose proof (counter_after_reject_bounds (flavour E) s) as Hj.
  assert (Hk : counter_after_key (flavour E) s (ID u) <= int_max)
    by (apply counter_after_key_upper;
        [assumption | now apply in_int_between]).
  destruct fs as [|[] fs]; unfold Create, bind, ret, call_fails;
    cbn [faults rows seq fst snd]; try exact R;
    (destruct (ID u =? 0) eqn:Hz;
     [ destruct (s <? int_max) eqn:Hlt; [|exact R];
       apply Z.ltb_lt in Hlt;
       destruct (insert E _ rs) as [rs'|] eqn:Hi; cbn [snd];
       [ eapply ranged_insert; [exact R | exact Hi | | lia];
         cbn [ID]; apply in_int_between; lia
       | split; [cbn [seq]; lia | apply R] ]
     | destruct (insert E u rs) as [rs'|] eqn:Hi; cbn [snd];
       [ eapply ranged_insert; [exact R | exact Hi | exact Hu | exact Hk]
       | exact R ] ]).
Qed.

Lemma ranged_Save (u : User) (db : DB) :
  wf db -> ranged db -> in_int (ID u) = true ->
  ranged (snd (Save E u db)).
Proof.
  intros W R Hu. destruct (Z.eq_dec (ID u) 0) as [Hz|Hz].
  - unfold Save. apply Z.eqb_eq in Hz. rewrite Hz. now apply ranged_Create.
  - rewrite Save_keyed by assumption.
    destruct db as [rs s fs].
    assert (Hm : s <= int_max) by apply R.
    assert (Hk : counter_after_key (flavour E) s (ID u) <= int_max)
      by (apply counter_after_key_upper;
          [assumption | now apply in_int_between]).
    destruct fs as [|[] fs]; unfold bind, ret, call_fails;
      cbn [faults rows seq fst snd]; try exact R;
      (destruct (has_id (ID u) rs);
       [ destruct (update E u rs) as [rs'|] eqn:Hup; cbn [snd];
         [ eapply ranged_update; [exact R | exact Hup] | exact R ]
       | destruct (insert E u rs) as [rs'|] eqn:Hi; cbn [snd];
         [ eapply ranged_insert; [exact R | exact Hi | exact Hu | exact Hk]
         | exact R ] ]).
Qed.

Lemma ranged_Delete (u : User) (db : DB) :
  ranged db -> ranged (snd (Delete u db)).
Proof.
  intros R. destruct db as [rs s fs]. unfold Delete.
  destruct (ID u =? 0); [exact R|].
  destruct fs as [|[] fs]; unfold bind, ret, call_fails;
    cbn [faults rows seq fst snd]; try exact R;
    (split; [apply R|]; apply Forall_forall; intros x Hx;
     apply filter_In in Hx as [Hx _];
     destruct R as [_ Hr]; rewrite Forall_forall in Hr; now apply Hr).
Qed.

Lemma ranged_frame (db db' : DB) :
  rows db' = rows db -> seq db' = seq db -> ranged db -> ranged db'.
Proof. unfold ranged. intros -> ->. tauto. Qed.

Lemma First_stored (id : string) (db db' : DB) (u : User) :
  First E id db = (inr u, db') -> In u (rows db).
Proof.
  intros H. apply First_found in H as (H & _ & _).
  now apply (select_first_In E id).
Qed.

(** The two parts of the invariant together, through each handler. *)
Lemma sound_getUsers (c : Context) (db : DB) :
  wf db /\ ranged db ->
  wf (snd (getUsers E c db)) /\ ranged (snd (getUsers E c db)).
Proof.
  intros [W R]. destruct (getUsers_frame E c db) as [Hr Hs]. split.
  - apply wf_frame with db; auto. lia.
  - now apply ranged_frame with db.
Qed.

Lemma sound_getUser (c : Context) (db : DB) :
  wf db /\ ranged db ->
  wf (snd (getUser E c db)) /\ ranged (snd (getUser E c db)).
Proof.
  intros [W R]. destruct (getUser_frame E c db) as [Hr Hs]. split.
  - apply wf_frame with db; auto. lia.
  - now apply ranged_frame with db.
Qed.

Lemma sound_createUser (c : Context) (db : DB) :
  wf db /\ ranged db ->
  wf (snd (createUser E c db)) /\ ranged (snd (createUser E c db)).
Proof.
  intros [W R]. split; [now apply wf_createUser|].
  unfold createUser, bind, ret.
  destruct (ShouldBindJSON (Body c) zeroUser) as [u|] eqn:HB; [|exact R].
  assert (Hu : in_int (ID u) = true)
    by (apply (ShouldBindJSON_in_int (Body c) zeroUser u);
        [reflexivity | exact HB]).
  pose proof (ranged_Create u db W R Hu) as R'.
  destruct (Create E u db) as [[u' [e|]] db']; exact R'.
Qed.

Lemma sound_updateUser (c : Context) (db : DB) :
  wf db /\ ranged db ->
  wf (snd (updateUser E c db)) /\ ranged (snd (updateUser E c db)).
Proof.
  intros [W R]. split; [now apply wf_updateUser|].
  unfold updateUser, bind, ret.
  pose proof (wf_First E (Param_id c) db W) as W1.
  destruct (First_rows E (Param_id c) db) as [Hr Hs].
  destruct (First E (Param_id c) db) as [[e|U] db1] eqn:HF;
    cbn [snd] in *; [now apply ranged_frame with db|].
  assert (R1 : ranged db1) by now apply ranged_frame with db.
  destruct (ShouldBindJSON (Body c) U) as [u|] eqn:HB; [|exact R1].
  assert (HU : in_int (ID U) = true).
  { apply First_stored in HF. destruct R as [_ R].
    rewrite Forall_forall in R. now apply R. }
  assert (Hu : in_int (ID u) = true)
    by (apply (ShouldBindJSON_in_int (Body c) U u); assumption).
  pose proof (ranged_Save u db1 W1 R1 Hu) as R2.
  destruct (Save E u db1) as [[u' [e|]] db2]; exact R2.
Qed.

Lemma sound_deleteUser (c : Context) (db : DB) :
  wf db /\ ranged db ->
  wf (snd (deleteUser E c db)) /\ ranged (snd (deleteUser E c db)).
Proof.
  intros [W R]. split; [now apply wf_deleteUser|].
  unfold deleteUser, bind, ret.
  destruct (First_rows E (Param_id c) db) as [Hr Hs].
  destruct (First E (Param_id c) db) as [[e|U] db1] eqn:HF;
    cbn [snd] in *; [now apply ranged_frame with db|].
  assert (R1 : ranged db1) by now apply ranged_frame with db.
  pose proof (ranged_Delete U db1 R1) as R2.
  destruct (Delete U db1) as [[e|] db2]; exact R2.
Qed.

Lemma sound_ServeHTTP (req : Request) (db : DB) :
  wf db /\ ranged db ->
  wf (snd (ServeHTTP E req db)) /\ ranged (snd (ServeHTTP E req db)).
Proof.
  intros S.
  destruct (ServeHTTP_cases E req db)
    as [H|[(_ & _ & H)|[(_ & _ & H)|(id & _ & _ & _ &
          [(_ & H)|[(_ & H)|(_ & H)]])]]];
    rewrite H; cbn [snd]; auto using sound_getUsers, sound_getUser,
      sound_createUser, sound_updateUser, sound_deleteUser.
Qed.

Lemma sound_serve_all (reqs : list Request) :
  forall db, wf db /\ ranged db ->
  wf (snd (serve_all E reqs db)) /\ ranged (snd (serve_all E reqs db)).
Proof.
  induction reqs as [|req reqs IH]; intros db S; [exact S|].
  simpl. unfold bind, ret.
  pose proof (sound_ServeHTTP req db S) as S1.
  destruct (ServeHTTP E req db) as [resp db1]. cbn [snd] in S1.
  specialize (IH db1 S1).
  destruct (serve_all E reqs db1) as [resps db2]. exact IH.
Qed.

Lemma sound_empty (fs : list bool) : wf (emptyDB fs) /\ ranged (emptyDB fs).
Proof.
  split; [apply wf_empty|]. split; [|constructor].
  simpl. unfold int_max. discriminate.
Qed.

(** What [First] returns for a stored user, and [getUser] with it. *)
Lemma First_present (id : string) (db : DB) (u : User) :
  wf db -> In u (rows db) -> Atoi id = Some (ID u) -> calm 1 db ->
  fst (First E id db) = inr u.
Proof.
  intros W Hin Ha Hc. rewrite First_calm by assumption.
  apply select_first_present; auto. apply W.
Qed.

Lemma getUser_of_First (g : Context) (db : DB) (u : User) :
  fst (First E (Param_id g) db) = inr u ->
  fst (getUser E g db) = JSON 200 (OneUser u).
Proof.
  unfold getUser, bind, ret.
  destruct (First E (Param_id g) db) as [[e|u'] d]; simpl;
    intros H; inversion H; reflexivity.
Qed.

End Ranged.

(** ** The text of an id as a path segment *)

Lemma digit_char_not_slash (d : Z) :
  0 <= d <= 9 -> Ascii.eqb (digit_char d) "/" = false.
Proof.
  intros H.
  assert (C : d = 0 \/ d = 1 \/ d = 2 \/ d = 3 \/ d = 4 \/ d = 5 \/
              d = 6 \/ d = 7 \/ d = 8 \/ d = 9) by lia.
  repeat (destruct C as [->|C]; [reflexivity|]). subst. reflexivity.
Qed.

Lemma has_slash_String (c : ascii) (r : string) :
  has_slash (String c r) = (Ascii.eqb c "/" || has_slash r)%bool.
Proof. reflexivity. Qed.

Lemma utoa_no_slash (f : nat) :
  forall n acc, has_slash acc = false -> has_slash (utoa f n acc) = false.
Proof.
  induction f as [|f IH]; intros n acc Hacc; [exact Hacc|].
  assert (Hd : 0 <= n mod 10 <= 9)
    by (pose proof (Z.mod_pos_bound n 10); lia).
  assert (Hs : has_slash (String (digit_char (n mod 10)) acc) = false)
    by (rewrite has_slash_String, digit_char_not_slash, Hacc by assumption;
        reflexivity).
  rewrite utoa_S. destruct (n / 10 =? 0); [exact Hs | now apply IH].
Qed.

Lemma Itoa_segment (z : Z) : Itoa z <> "" /\ has_slash (Itoa z) = false.
Proof.
  unfold Itoa. destruct (z <? 0).
  - split; [discriminate|].
    rewrite has_slash_String, utoa_no_slash by reflexivity. reflexivity.
  - split; [|now apply utoa_no_slash].
    destruct (utoa_S_cons 19 z "") as (c & r & Hu).
    change (S 19) with 20%nat in Hu. rewrite Hu. discriminate.
Qed.

Section Reached.

Variable E : Engine.

Lemma ServeHTTP_item (m : string) (h : HandlerFunc) (id : string)
      (b : option json) (db : DB) :
  id <> "" -> has_slash id = false ->
  (m = "GET" /\ h = getUser E) \/ (m = "PUT" /\ h = updateUser E) \/
  (m = "DELETE" /\ h = deleteUser E) ->
  ServeHTTP E (mkRequest m (user_path id) b) db
  = (Some (fst (h (mkContext id b) db)), snd (h (mkContext id b) db)).
Proof.
  intros Hne Hs Hm.
  destruct (find_route_item m id b Hne Hs) as [Hi Hc].
  unfold ServeHTTP, initializeRoutes. cbn [find_route].
  unfold route_matches. cbn [fst snd Method Path Sent].
  rewrite Hi, Hc.
  destruct Hm as [[-> ->]|[[-> ->]|[-> ->]]].
  - change (String.eqb "GET" "GET") with true. cbv iota.
    rewrite bind_Some. reflexivity.
  - change (String.eqb "PUT" "GET") with false.
    change (String.eqb "PUT" "POST") with false.
    change (String.eqb "PUT" "PUT") with true. cbv iota.
    rewrite bind_Some. reflexivity.
  - change (String.eqb "DELETE" "GET") with false.
    change (String.eqb "DELETE" "POST") with false.
    change (String.eqb "DELETE" "PUT") with false.
    change (String.eqb "DELETE" "DELETE") with true. cbv iota.
    rewrite bind_Some. reflexivity.
Qed.

(** X4.  How the five routes lead to the five handlers.  GET and POST on
    [/api/v1/users] run [getUsers] and [createUser]; GET, PUT and DELETE
    on [/api/v1/users/] followed by a segment that is not empty run
    [getUser], [updateUser] and [deleteUser] with that segment as the
    [id] parameter, and with the body of the request. *)
Theorem routes_reach_handlers (id : string) (b : option json) (db : DB) :
  ServeHTTP E (mkRequest "GET" "/api/v1/users" b) db
  = (Some (fst (getUsers E (mkContext "" b) db)),
     snd (getUsers E (mkContext "" b) db)) /\
  ServeHTTP E (mkRequest "POST" "/api/v1/users" b) db
  = (Some (fst (createUser E (mkContext "" b) db)),
     snd (createUser E (mkContext "" b) db)) /\
  (id <> "" -> has_slash id = false ->
   ServeHTTP E (mkRequest "GET" (user_path id) b) db
   = (Some (fst (getUser E (mkContext id b) db)),
      snd (getUser E (mkContext id b) db)) /\
   ServeHTTP E (mkRequest "PUT" (user_path id) b) db
   = (Some (fst (updateUser E (mkContext id b) db)),
      snd (updateUser E (mkContext id b) db)) /\
   ServeHTTP E (mkRequest "DELETE" (user_path id) b) db
   = (Some (fst (deleteUser E (mkContext id b) db)),
      snd (deleteUser E (mkContext id b) db))).
Proof.
  split; [|split].
  - unfold ServeHTTP. 
    change (find_route (initializeRoutes E)
              (mkRequest "GET" "/api/v1/users" b))
      with (Some (getUsers E, @nil (string * string))).
    cbv iota. rewrite bind_Some. reflexivity.
  - unfold ServeHTTP.
    change (find_route (initializeRoutes E)
              (mkRequest "POST" "/api/v1/users" b))
      with (Some (createUser E, @nil (string * string))).
    cbv iota. rewrite bind_Some. reflexivity.
  - intros Hne Hs. repeat split; apply ServeHTTP_item; auto.
Qed.

(** X5.  A request that is none of the five runs no handler and leaves the
    state as it is: any method other than GET, POST, PUT and DELETE; PUT
    and DELETE on the collection path; and any path that is neither
    [/api/v1/users] nor [/api/v1/users/] followed by one segment that is
    not empty (so also [/api/v1/users/] itself and paths that go deeper). *)
Theorem other_requests_run_no_handler (req : Request) (db : DB) :
  (Method req <> "GET" /\ Method req <> "POST" /\
   Method req <> "PUT" /\ Method req <> "DELETE") \/
  (Method req <> "GET" /\ Method req <> "POST" /\
   Path req = "/api/v1/users") \/
  (Path req <> "/api/v1/users" /\
   forall id, has_slash id = false -> id <> "" ->
              Path req <> user_path id) ->
  ServeHTTP E req db = (None, db).
Proof.
  intros Hreq.
  destruct (ServeHTTP_cases E req db)
    as [H|[(Hm & Hp & _)|[(Hm & Hp & _)|(id & Hne & Hs & Hp & Hm)]]];
    [exact H | exfalso .. ].
  - destruct Hreq as [(G & _)|[(G & _)|(P & _)]]; contradiction.
  - destruct Hreq as [(_ & G & _)|[(_ & G & _)|(P & _)]]; contradiction.
  - destruct Hreq as [(G & _ & U & D)|[(_ & _ & P)|(_ & P)]].
    + destruct Hm as [[Hm _]|[[Hm _]|[Hm _]]]; contradiction.
    + rewrite Hp in P. discriminate.
    + now apply (P id).
Qed.

(** X6.  Whatever requests have been served since the table was empty, the
    table has its invariant: the sequence is between 0 and the largest
    [int], no key is zero, every key fits an [int], and no two rows have
    the same key or the same email. *)
Theorem served_table_sound (reqs : list Request) (fs : list bool) :
  wf (snd (serve_all E reqs (emptyDB fs))) /\
  ranged (snd (serve_all E reqs (emptyDB fs))).
Proof. apply sound_serve_all. apply sound_empty. Qed.

(** X7.  In a table with the invariant, a GET whose path id reads as the
    key of a stored user, and that no outside failure hits, is answered
    200 with that user. *)
Theorem getUser_finds_stored (g : Context) (db : DB) (u : User) :
  wf db -> In u (rows db) -> Atoi (Param_id g) = Some (ID u) ->
  calm 1 db ->
  fst (getUser E g db) = JSON 200 (OneUser u).
Proof.
  intros W Hin Ha Hc. apply getUser_of_First. now apply First_present.
Qed.

(** X8.  Whatever requests have been served since the table was empty,
    every row of the table is what GET /api/v1/users/{id} answers, with
    status 200, for the decimal text of the row's key, unless an outside
    failure hits that request. *)
Theorem stored_user_is_served
    (reqs : list Request) (fs : list bool) (u : User) :
  In u (rows (snd (serve_all E reqs (emptyDB fs)))) ->
  calm 1 (snd (serve_all E reqs (emptyDB fs))) ->
  fst (ServeHTTP E (mkRequest "GET" (user_path (Itoa (ID u))) None)
         (snd (serve_all E reqs (emptyDB fs))))
  = Some (JSON 200 (OneUser u)).
Proof.
  intros Hin Hc.
  destruct (sound_serve_all E reqs (emptyDB fs) (sound_empty fs))
    as [W [_ R]].
  destruct (Itoa_segment (ID u)) as [Hne Hs].
  rewrite (ServeHTTP_item "GET" (getUser E)) by auto.
  cbn [fst]. f_equal. apply getUser_of_First.
  apply First_present; auto. cbn [Param_id]. apply Atoi_Itoa.
  rewrite Forall_forall in R. now apply R.
Qed.

End Reached.

(** ** Writes and what they leave alone *)

Section Writes.

Variable E : Engine.

Lemma Save_ok_keeps (u u' v : User) (db db' : DB) :
  Save E u db = (u', None, db') -> In v (rows db) -> ID v <> ID u' ->
  In v (rows db').
Proof.
  intros H Hin Hne. destruct (Z.eq_dec (ID u) 0) as [Hz|Hz].
  - unfold Save in H. apply Z.eqb_eq in Hz. rewrite Hz in H.
    apply Create_ok in H as (r & _ & _ & _ & _ & Hr & _).
    rewrite Hr. apply in_or_app. now left.
  - apply Save_ok_keyed in H as (-> & _ & rs' & <- & Hc); [|assumption].
    destruct (has_id (ID u) (rows db)).
    + apply update_rows in Hc as (n & e & _ & _ & ->).
      apply in_map_iff. exists v. split; [|assumption].
      apply Z.eqb_neq in Hne. now rewrite Hne.
    + apply insert_rows in Hc as (r & -> & _).
      apply in_or_app. now left.
Qed.

Lemma Save_dup_email (u : User) (e : string) (db : DB) :
  varchar100 E (Email u) = Some e ->
  has_email e (filter (fun r => negb (ID r =? ID u)) (rows db)) = true ->
  exists u' err db',
    Save E u db = (u', Some err, db') /\ rows db' = rows db.
Proof.
  intros Hv He.
  assert (Hall : has_email e (rows db) = true).
  { unfold has_email in *. apply existsb_exists in He as (x & Hx & Hxe).
    apply filter_In in Hx as [Hx _]. apply existsb_exists. eauto. }
  destruct (Z.eq_dec (ID u) 0) as [Hz|Hz].
  - unfold Save. apply Z.eqb_eq in Hz. rewrite Hz.
    now apply Create_dup_email with e.
  - rewrite Save_keyed by assumption.
    assert (Hup : update E u (rows db) = None).
    { unfold update. rewrite Hv.
      destruct (varchar100 E (Name u)); [|reflexivity]. now rewrite He. }
    assert (Hin : insert E u (rows db) = None)
      by now apply insert_dup_email with e.
    destruct db as [rs s [|[] fs]]; unfold bind, ret, call_fails;
      cbn [faults rows seq] in *; try (destruct (has_id (ID u) rs));
      rewrite ?Hup, ?Hin; eauto.
Qed.

Lemma deleteUser_absent (c : Context) (n : Z) (db : DB) :
  Atoi (Param_id c) = Some n -> has_id n (rows db) = false ->
  fst (deleteUser E c db) = not_found /\
  rows (snd (deleteUser E c db)) = rows db.
Proof.
  intros Ha Hn.
  destruct db as [rs s [|[] fs]]; unfold deleteUser, First, bind, ret,
    call_fails; cbn [faults rows seq] in *; try (split; reflexivity);
    rewrite (select_first_absent E _ _ _ Ha Hn); split; reflexivity.
Qed.

Lemma deleteUser_removes (c : Context) (db : DB) (u : User) :
  wf db -> In u (rows db) -> Atoi (Param_id c) = Some (ID u) ->
  calm 2 db ->
  exists db',
    deleteUser E c db = (JSON 200 (H "User deleted"), db') /\
    rows db' = filter (fun r => negb (ID r =? ID u)) (rows db) /\
    seq db' = seq db.
Proof.
  intros W Hin Ha Hc.
  assert (Hz : ID u <> 0) by now apply wf_In_nonzero with db.
  assert (Hsel : select_first E (rows db) (Param_id c) = inr u)
    by (apply select_first_present; auto; apply W).
  destruct (First_calm_eq E (Param_id c) 1 db Hc)
    as (d1 & HF & Hr1 & Hs1 & Hc1).
  destruct (Delete_calm u d1 Hc1 Hz) as (d2 & HD & Hr2 & Hs2).
  exists d2. repeat split; try congruence.
  unfold deleteUser, bind, ret. rewrite HF, Hsel, HD. reflexivity.
Qed.

Lemma updateUser_saved (c : Context) (db db' : DB) (p : payload) :
  updateUser E c db = (JSON 200 p, db') ->
  exists U u1 u d,
    First E (Param_id c) db = (inr U, d) /\
    ShouldBindJSON (Body c) U = Some u1 /\
    Save E u1 d = (u, None, db') /\ p = OneUser u.
Proof.
  unfold updateUser, bind, ret. intros H.
  destruct (First E (Param_id c) db) as [[e|U] d] eqn:HF; [discriminate|].
  destruct (ShouldBindJSON (Body c) U) as [u1|] eqn:HB; [|discriminate].
  destruct (Save E u1 d) as [[u [e|]] d'] eqn:HS; [discriminate|].
  inversion H; subst. exists U, u1, u, d. auto.
Qed.

(** X9.  What a PUT answers with 200 is what the table then holds: in a
    table with the invariant, when the user of the answer has texts their
    columns store as offered, a GET for the id of the answer that follows
    at once is answered 200 with the same user. *)
Theorem updateUser_then_getUser
    (c g : Context) (db db' : DB) (u : User) :
  wf db ->
  updateUser E c db = (JSON 200 (OneUser u), db') ->
  kept E u ->
  Atoi (Param_id g) = Some (ID u) ->
  calm 1 db' ->
  fst (getUser E g db') = JSON 200 (OneUser u).
Proof.
  intros W H K Ha Hc.
  assert (W' : wf db')
    by (pose proof (wf_updateUser E c db W) as W'; now rewrite H in W').
  apply updateUser_saved in H as (U & u1 & u' & d & _ & _ & HS & Hp).
  inversion Hp; subst u'; clear Hp.
  apply Save_ok_stored in HS as (_ & _ & r & Hin & Hs).
  assert (r = u) by now apply (stored_kept E). subst r.
  apply getUser_of_First. now apply First_present.
Qed.

(** X10.  A PUT that would give a record the email of another record is
    answered 500 and changes no row: when the fetch returns [U], the body
    decodes into it as [u1], and some row with another key than [u1]'s
    holds the email of [u1] as its column stores it. *)
Theorem updateUser_taken_email
    (c : Context) (db : DB) (U u1 V : User) :
  fst (First E (Param_id c) db) = inr U ->
  ShouldBindJSON (Body c) U = Some u1 ->
  In V (rows db) -> ID V <> ID u1 ->
  varchar100 E (Email u1) = Some (Email V) ->
  fst (updateUser E c db)
  = JSON 500 (Failure (mkErrorResponse "Failed to update user")) /\
  rows (snd (updateUser E c db)) = rows db.
Proof.
  intros HF HB Hin Hne Hv. unfold updateUser, bind, ret.
  destruct (First E (Param_id c) db) as [[e|U'] d] eqn:HFd;
    simpl in HF; [discriminate|]. inversion HF; subst U'; clear HF.
  apply First_found in HFd as (_ & Hr & _).
  rewrite HB.
  assert (He : has_email (Email V)
                 (filter (fun r => negb (ID r =? ID u1)) (rows d)) = true).
  { unfold has_email. apply existsb_exists. exists V. split.
    - apply filter_In. rewrite Hr. split; [assumption|].
      apply negb_true_iff. now apply Z.eqb_neq.
    - apply String.eqb_refl. }
  destruct (Save_dup_email u1 _ d Hv He) as (u' & err & d' & HS & Hr').
  rewrite HS. simpl. split; [reflexivity | congruence].
Qed.

(** X11.  A POST whose body gives an id that is the key of a stored user
    is answered 500; rows and sequence stay as they were. *)
Theorem createUser_taken_id (c : Context) (db : DB) (u0 : User) :
  ShouldBindJSON (Body c) zeroUser = Some u0 ->
  ID u0 <> 0 ->
  has_id (ID u0) (rows db) = true ->
  fst (createUser E c db)
  = JSON 500 (Failure (mkErrorResponse "Failed to create user")) /\
  rows (snd (createUser E c db)) = rows db /\
  seq (snd (createUser E c db)) = seq db.
Proof.
  intros HB Hz Hid. apply Z.eqb_neq in Hz.
  assert (Hi : insert E u0 (rows db) = None).
  { unfold insert. destruct (varchar100 E (Name u0)); [|reflexivity].
    destruct (varchar100 E (Email u0)); [|reflexivity]. now rewrite Hid. }
  unfold createUser, Create, bind, ret, call_fails. rewrite HB.
  destruct db as [rs s [|[] fs]]; cbn [faults rows seq] in *;
    rewrite ?Hz, ?Hi; repeat split.
Qed.

(** X12.  Deleting twice: after the DELETE of a stored user has been
    answered 200, the same DELETE again is answered 404 and changes no
    row, whatever the failure schedule. *)
Theorem deleteUser_twice (c : Context) (db : DB) (u : User) :
  wf db -> In u (rows db) -> Atoi (Param_id c) = Some (ID u) ->
  calm 2 db ->
  fst (deleteUser E c db) = JSON 200 (H "User deleted") /\
  fst (deleteUser E c (snd (deleteUser E c db))) = not_found /\
  rows (snd (deleteUser E c (snd (deleteUser E c db))))
  = rows (snd (deleteUser E c db)).
Proof.
  intros W Hin Ha Hc.
  destruct (deleteUser_removes c db u W Hin Ha Hc) as (d & Hd & Hr & _).
  rewrite Hd. cbn [fst snd]. split; [reflexivity|].
  apply deleteUser_absent with (ID u); [assumption|].
  rewrite Hr. apply has_id_filter_out.
Qed.

(** X13.  A DELETE removes one user and no other: in a table with the
    invariant, after the DELETE of the stored user [u], every other stored
    user [v] is still what a GET for its id answers. *)
Theorem deleteUser_keeps_others (c g : Context) (db : DB) (u v : User) :
  wf db -> In u (rows db) -> In v (rows db) -> ID v <> ID u ->
  Atoi (Param_id c) = Some (ID u) -> calm 2 db ->
  Atoi (Param_id g) = Some (ID v) ->
  calm 1 (snd (deleteUser E c db)) ->
  fst (getUser E g (snd (deleteUser E c db))) = JSON 200 (OneUser v).
Proof.
  intros W Hu Hv Hne Ha Hc Hg Hc'.
  pose proof (wf_deleteUser E c db W) as W'.
  destruct (deleteUser_removes c db u W Hu Ha Hc) as (d & Hd & Hr & _).
  rewrite Hd in *. cbn [snd] in *.
  apply getUser_of_First. apply First_present; auto.
  rewrite Hr. apply filter_In. split; [assumption|].
  apply negb_true_iff. now apply Z.eqb_neq.
Qed.

(** X14.  A POST adds a user and touches no other: in a table with the
    invariant, after a POST that was answered 201, every user stored
    before is still what a GET for its id answers. *)
Theorem createUser_keeps_users
    (c g : Context) (db db' : DB) (p : payload) (v : User) :
  wf db -> createUser E c db = (JSON 201 p, db') ->
  In v (rows db) -> Atoi (Param_id g) = Some (ID v) -> calm 1 db' ->
  fst (getUser E g db') = JSON 200 (OneUser v).
Proof.
  intros W H Hv Hg Hc.
  assert (W' : wf db')
    by (pose proof (wf_createUser E c db W) as W'; now rewrite H in W').
  apply createUser_created in H
    as (u0 & u & r & _ & _ & _ & _ & _ & _ & Hr & _).
  apply getUser_of_First. apply First_present; auto.
  rewrite Hr. apply in_or_app. now left.
Qed.

(** X15.  A PUT touches one user and no other: in a table with the
    invariant, after a PUT that was answered 200 with the user [u], every
    stored user [v] with another id than [u]'s is still what a GET for
    its id answers. *)
Theorem updateUser_keeps_others
    (c g : Context) (db db' : DB) (u v : User) :
  wf db -> updateUser E c db = (JSON 200 (OneUser u), db') ->
  In v (rows db) -> ID v <> ID u ->
  Atoi (Param_id g) = Some (ID v) -> calm 1 db' ->
  fst (getUser E g db') = JSON 200 (OneUser v).
Proof.
  intros W H Hv Hne Hg Hc.
  assert (W' : wf db')
    by (pose proof (wf_updateUser E c db W) as W'; now rewrite H in W').
  apply updateUser_saved in H as (U & u1 & u' & d & HF & _ & HS & Hp).
  inversion Hp; subst u'; clear Hp.
  apply First_found in HF as (_ & Hr & _).
  apply getUser_of_First. apply First_present; auto.
  apply (Save_ok_keeps u1 u v d db'); auto. now rewrite Hr.
Qed.

End Writes.

(** ** Successful updates, a failing storage, and the reset *)

(** X16.  The JSON that [json.Marshal] writes for a [User], as the tests
    send it, decodes into any struct as exactly that user: all three
    fields are overwritten, whatever the struct held. *)
Theorem ShouldBindJSON_overwrites (i : Z) (n e : string) (u : User) :
  in_int i = true ->
  ShouldBindJSON (user_json i n e) u = Some (mkUser i n e).
Proof.
  intros Hi. unfold ShouldBindJSON, user_json.
  cbn [set_members].
  change (set_member u ("id", JInt i))
    with (if in_int i then Some (mkUser i (Name u) (Email u)) else None).
  rewrite Hi. reflexivity.
Qed.

Section Outcomes.

Variable E : Engine.

(** X17.  A PUT that has all it needs is answered 200 and replaces name
    and email of the one row: a table with the invariant, no outside
    failure in its two calls, a path id that reads as the key of the stored
    user [U], a body that decodes into [U] without changing the id, texts
    their columns accept, and an email that no other row holds.  The
    answer is the decoded user; the rows are those of before with the two
    stored texts in the row of [U]; the sequence is as before. *)
Theorem updateUser_succeeds
    (c : Context) (db : DB) (U u1 : User) (n e : string) :
  wf db -> calm 2 db ->
  In U (rows db) -> Atoi (Param_id c) = Some (ID U) ->
  ShouldBindJSON (Body c) U = Some u1 -> ID u1 = ID U ->
  varchar100 E (Name u1) = Some n ->
  varchar100 E (Email u1) = Some e ->
  has_email e (filter (fun r => negb (ID r =? ID U)) (rows db)) = false ->
  fst (updateUser E c db) = JSON 200 (OneUser u1) /\
  rows (snd (updateUser E c db))
  = map (fun r => if ID r =? ID U then mkUser (ID r) n e else r)
        (rows db) /\
  seq (snd (updateUser E c db)) = seq db.
Proof.
  intros W Hc Hin Ha HB Hid Hn He Hfree.
  assert (Hz : ID u1 <> 0)
    by (rewrite Hid; now apply wf_In_nonzero with db).
  assert (Hsel : select_first E (rows db) (Param_id c) = inr U)
    by (apply select_first_present; auto; apply W).
  destruct (First_calm_eq E (Param_id c) 1 db Hc)
    as (d1 & HF & Hr1 & Hs1 & Hc1).
  assert (Hup : update E u1 (rows d1)
                = Some (map (fun r => if ID r =? ID U
                                      then mkUser (ID r) n e else r)
                            (rows db))).
  { unfold update. rewrite Hn, He, Hr1, Hid, Hfree. reflexivity. }
  assert (Hhas : has_id (ID u1) (rows d1) = true)
    by (rewrite Hr1, Hid; now apply has_id_In).
  assert (HS : exists d2,
    Save E u1 d1 = (u1, None, d2) /\
    rows d2 = map (fun r => if ID r =? ID U then mkUser (ID r) n e else r)
                  (rows db) /\
    seq d2 = seq d1).
  { rewrite Save_keyed by assumption.
    destruct d1 as [rs s [|b fs]]; unfold bind, ret, call_fails;
      cbn [faults rows seq] in *;
      [| apply calm_S in Hc1 as [-> _]; cbn [faults rows seq] ];
      rewrite Hhas, Hup; eexists; repeat split. }
  destruct HS as (d2 & HS & Hr2 & Hs2).
  unfold updateUser, bind, ret. rewrite HF, Hsel, HB, HS.
  cbn [fst snd]. repeat split; congruence.
Qed.

(** X18.  When the storage fails on the first call of a request, GET
    /users answers 500, POST with a body that decodes answers 500, and the
    three handlers that start with a fetch by id answer 404, the same
    answer they give for a user that does not exist.  Rows and sequence
    stay as they were. *)
Theorem storage_failure_answers
    (c : Context) (db : DB) (fs : list bool) :
  faults db = true :: fs ->
  getUsers E c db
  = (JSON 500 (Failure (mkErrorResponse "Error fetching users")),
     mkDB (rows db) (seq db) fs) /\
  getUser E c db = (not_found, mkDB (rows db) (seq db) fs) /\
  updateUser E c db = (not_found, mkDB (rows db) (seq db) fs) /\
  deleteUser E c db = (not_found, mkDB (rows db) (seq db) fs) /\
  (ShouldBindJSON (Body c) zeroUser <> None ->
   createUser E c db
   = (JSON 500 (Failure (mkErrorResponse "Failed to create user")),
      mkDB (rows db) (seq db) fs)).
Proof.
  intros Hf. destruct db as [rs s fs']. cbn [faults] in Hf. subst fs'.
  repeat split.
  intros HB. unfold createUser.
  destruct (ShouldBindJSON (Body c) zeroUser) as [u|];
    [reflexivity | contradiction].
Qed.

(** X19.  After [resetDatabase], with no outside failure in its two
    statements, the table is empty and its ids start over, whatever it
    held: the next POST without an id, with texts the columns accept, is
    answered 201 with the id 1. *)
Theorem resetDatabase_then_create
    (c : Context) (db : DB) (u0 : User) (n e : string) :
  calm 3 db ->
  ShouldBindJSON (Body c) zeroUser = Some u0 -> ID u0 = 0 ->
  varchar100 E (Name u0) = Some n ->
  varchar100 E (Email u0) = Some e ->
  rows (snd (resetDatabase db)) = [] /\
  seq (snd (resetDatabase db)) = 0 /\
  fst (createUser E c (snd (resetDatabase db)))
  = JSON 201 (OneUser (mkUser 1 (Name u0) (Email u0))) /\
  rows (snd (createUser E c (snd (resetDatabase db)))) = [mkUser 1 n e].
Proof.
  intros Hc HB Hz Hn He.
  assert (G : forall fs',
    createUser E c (mkDB [] 0 fs')
    = (if hd false fs'
       then JSON 500 (Failure (mkErrorResponse "Failed to create user"))
       else JSON 201 (OneUser (mkUser 1 (Name u0) (Email u0))),
       mkDB (if hd false fs' then [] else [mkUser 1 n e])
            (if hd false fs' then 0 else 1) (tl fs'))).
  { intros fs'. unfold createUser, Create, bind, ret, call_fails.
    rewrite HB. destruct fs' as [|[] fs']; cbn [faults rows seq hd tl];
      try reflexivity; rewrite Hz; cbn [Z.eqb];
      change (0 <? int_max) with true; cbv iota;
      unfold insert; cbn [Name Email ID has_id has_email existsb orb];
      rewrite Hn, He; reflexivity. }
  destruct db as [rs s [|b1 [|b2 [|b3 fs]]]];
    repeat match goal with
           | Hc : calm (S _) (mkDB _ _ (_ :: _)) |- _ =>
               apply calm_S in Hc as [-> Hc]
           end;
    unfold resetDatabase, Exec_delete_users, Exec_delete_sequence,
      bind, ret, call_fails; cbn [faults rows seq fst snd];
    rewrite G; cbn [hd tl fst snd rows]; repeat split.
Qed.

End Outcomes.

(** ** The further properties on concrete requests *)

Ltac table_invariant :=
  unfold wf; simpl; repeat split; repeat constructor; simpl;
  intuition (try lia; try discriminate).

Lemma routes_reach_handlers_witness :
  ServeHTTP small_engine (mkRequest "DELETE" (user_path "1") None) eve_db
  = (Some (fst (deleteUser small_engine (mkContext "1" None) eve_db)),
     snd (deleteUser small_engine (mkContext "1" None) eve_db)).
Proof.
  apply (proj2 (proj2 (routes_reach_handlers small_engine "1" None eve_db))).
  - discriminate.
  - reflexivity.
Defined.

Lemma other_requests_run_no_handler_witness :
  ServeHTTP small_engine (mkRequest "PUT" "/api/v1/users" None) eve_db
  = (None, eve_db).
Proof.
  apply (other_requests_run_no_handler small_engine
           (mkRequest "PUT" "/api/v1/users" None) eve_db).
  right. left. simpl. repeat split; discriminate.
Defined.

Lemma getUser_finds_stored_witness :
  fst (getUser small_engine (bare "2") alice_bob_db) = JSON 200 (OneUser bob).
Proof.
  apply (getUser_finds_stored small_engine (bare "2") alice_bob_db bob).
  - table_invariant.
  - simpl. auto.
  - reflexivity.
  - reflexivity.
Defined.

Lemma stored_user_is_served_witness :
  fst (ServeHTTP small_engine (mkRequest "GET" "/api/v1/users/1" None)
         (mkDB [alice] 1 []))
  = Some (JSON 200 (OneUser alice)).
Proof.
  refine (stored_user_is_served small_engine [post_alice_request] [] alice
            _ _).
  - vm_compute. auto.
  - reflexivity.
Defined.

Lemma updateUser_then_getUser_witness :
  fst (getUser small_engine (bare "1")
         (mkDB [mkUser 1 "Eve Updated" "eve@example.com"] 1 []))
  = JSON 200 (OneUser (mkUser 1 "Eve Updated" "eve@example.com")).
Proof.
  apply (updateUser_then_getUser small_engine put_name_only (bare "1")
           eve_db).
  - table_invariant.
  - reflexivity.
  - apply small_engine_kept; reflexivity.
  - reflexivity.
  - reflexivity.
Defined.

Lemma updateUser_taken_email_witness :
  fst (updateUser small_engine
         (mkContext "1" (Some (JObject [("email",
                                         JString "bob@example.com")])))
         alice_bob_db)
  = JSON 500 (Failure (mkErrorResponse "Failed to update user")).
Proof.
  apply (updateUser_taken_email small_engine
           (mkContext "1" (Some (JObject [("email",
                                           JString "bob@example.com")])))
           alice_bob_db alice (mkUser 1 "Alice" "bob@example.com") bob).
  - reflexivity.
  - reflexivity.
  - simpl. auto.
  - discriminate.
  - reflexivity.
Defined.

Lemma createUser_taken_id_witness :
  fst (createUser small_engine
         (mkContext "" (user_json 1 "Dave" "dave@example.com")) eve_db)
  = JSON 500 (Failure (mkErrorResponse "Failed to create user")).
Proof.
  apply (createUser_taken_id small_engine
           (mkContext "" (user_json 1 "Dave" "dave@example.com")) eve_db
           (mkUser 1 "Dave" "dave@example.com")).
  - reflexivity.
  - discriminate.
  - reflexivity.
Defined.

Lemma deleteUser_twice_witness :
  fst (deleteUser small_engine (bare "1")
         (snd (deleteUser small_engine (bare "1") eve_db)))
  = not_found.
Proof.
  apply (deleteUser_twice small_engine (bare "1") eve_db eve).
  - table_invariant.
  - simpl. auto.
  - reflexivity.
  - reflexivity.
Defined.

Lemma deleteUser_keeps_others_witness :
  fst (getUser small_engine (bare "2")
         (snd (deleteUser small_engine (bare "1") alice_bob_db)))
  = JSON 200 (OneUser bob).
Proof.
  apply (deleteUser_keeps_others small_engine (bare "1") (bare "2")
           alice_bob_db alice bob).
  - table_invariant.
  - simpl. auto.
  - simpl. auto.
  - discriminate.
  - reflexivity.
  - reflexivity.
  - reflexivity.
  - reflexivity.
Defined.

Lemma createUser_keeps_users_witness :
  fst (getUser small_engine (bare "1")
         (mkDB [eve; mkUser 2 "Dave" "dave@example.com"] 2 []))
  = JSON 200 (OneUser eve).
Proof.
  apply (createUser_keeps_users small_engine post_dave (bare "1") eve_db
           (mkDB [eve; mkUser 2 "Dave" "dave@example.com"] 2 [])
           (OneUser (mkUser 2 "Dave" "dave@example.com")) eve).
  - table_invariant.
  - reflexivity.
  - simpl. auto.
  - reflexivity.
  - reflexivity.
Defined.

Lemma updateUser_keeps_others_witness :
  fst (getUser small_engine (bare "2")
         (mkDB [mkUser 1 "Eve Updated" "alice@example.com"; bob] 2 []))
  = JSON 200 (OneUser bob).
Proof.
  apply (updateUser_keeps_others small_engine put_name_only (bare "2")
           alice_bob_db
           (mkDB [mkUser 1 "Eve Updated" "alice@example.com"; bob] 2 [])
           (mkUser 1 "Eve Updated" "alice@example.com") bob).
  - table_invariant.
  - reflexivity.
  - simpl. auto.
  - discriminate.
  - reflexivity.
  - reflexivity.
Defined.

Lemma ShouldBindJSON_overwrites_witness :
  ShouldBindJSON (user_json 7 "Eve Updated" "eve.updated@example.com") eve
  = Some (mkUser 7 "Eve Updated" "eve.updated@example.com").
Proof.
  apply (ShouldBindJSON_overwrites 7 "Eve Updated"
           "eve.updated@example.com" eve).
  reflexivity.
Defined.

Lemma updateUser_succeeds_witness :
  fst (updateUser small_engine put_name_only eve_db)
  = JSON 200 (OneUser (mkUser 1 "Eve Updated" "eve@example.com")).
Proof.
  apply (updateUser_succeeds small_engine put_name_only eve_db eve
           (mkUser 1 "Eve Updated" "eve@example.com")
           "Eve Updated" "eve@example.com").
  - table_invariant.
  - reflexivity.
  - simpl. auto.
  - reflexivity.
  - reflexivity.
  - reflexivity.
  - reflexivity.
  - reflexivity.
  - reflexivity.
Defined.

Lemma storage_failure_answers_witness :
  getUser small_engine (bare "1") (mkDB [eve] 1 [true])
  = (not_found, mkDB [eve] 1 []).
Proof.
  apply (proj1 (proj2 (storage_failure_answers small_engine (bare "1")
                         (mkDB [eve] 1 [true]) [] eq_refl))).
Defined.

Lemma resetDatabase_then_create_witness :
  fst (createUser small_engine post_dave (snd (resetDatabase alice_bob_db)))
  = JSON 201 (OneUser (mkUser 1 "Dave" "dave@example.com")).
Proof.
  apply (resetDatabase_then_create small_engine post_dave alice_bob_db
           (mkUser 0 "Dave" "dave@example.com")
           "Dave" "dave@example.com");
    reflexivity.
Defined.

Lemma createUser_succeeds_witness :
  createUser small_engine post_dave eve_db
  = (JSON 201 (OneUser (mkUser 2 "Dave" "dave@example.com")),
     mkDB [eve; mkUser 2 "Dave" "dave@example.com"] 2 []).
Proof.
  apply (createUser_succeeds small_engine post_dave eve_db
           (mkUser 0 "Dave" "dave@example.com")
           "Dave" "dave@example.com");
    reflexivity.
Defined.

(** ** The two engines side by side *)

(** A key of the client's choosing and the counter: after a POST with the
    id 42 on an empty table, the next POST without an id is given 43 by
    SQLite, whose counter has followed the key, and 1 by PostgreSQL, whose
    sequence has not. *)
Example counter_after_chosen_key :
  fst (createUser sqlite_engine post_alice
         (snd (createUser sqlite_engine post_dave_42 (emptyDB []))))
  = JSON 201 (OneUser (mkUser 43 "Alice" "alice@example.com")) /\
  fst (createUser small_engine post_alice
         (snd (createUser small_engine post_dave_42 (emptyDB []))))
  = JSON 201 (OneUser (mkUser 1 "Alice" "alice@example.com")).
Proof. split; reflexivity. Qed.

(** The order of GET /users: after POSTs with the ids 5 and 3, SQLite lists
    the users by key, PostgreSQL as they were inserted. *)
Example listing_after_chosen_keys :
  let five := mkContext "" (user_json 5 "Alice" "alice@example.com") in
  let three := mkContext "" (user_json 3 "Bob" "bob@example.com") in
  fst (getUsers sqlite_engine (bare "")
         (snd (createUser sqlite_engine three
                 (snd (createUser sqlite_engine five (emptyDB []))))))
  = JSON 200 (Users [mkUser 3 "Bob" "bob@example.com";
                     mkUser 5 "Alice" "alice@example.com"]) /\
  fst (getUsers small_engine (bare "")
         (snd (createUser small_engine three
                 (snd (createUser small_engine five (emptyDB []))))))
  = JSON 200 (Users [mkUser 5 "Alice" "alice@example.com";
                     mkUser 3 "Bob" "bob@example.com"]).
Proof. split; reflexivity. Qed.

(** A rejected INSERT and the counter: after a POST that is refused for its
    email, the next POST is given the id 2 by SQLite and 3 by PostgreSQL. *)
Example counter_after_rejected_insert :
  let twice (E : Engine) :=
    snd (createUser E post_dave
           (snd (createUser E post_dave (emptyDB [])))) in
  fst (createUser sqlite_engine post_alice (twice sqlite_engine))
  = JSON 201 (OneUser (mkUser 2 "Alice" "alice@example.com")) /\
  fst (createUser small_engine post_alice (twice small_engine))
  = JSON 201 (OneUser (mkUser 3 "Alice" "alice@example.com")).
Proof. split; reflexivity. Qed.
